(** * The SPI transport of the ESP host driver (esp_spi.c)

    A shallow embedding of [host/linux/host_driver/esp32/spi/esp_spi.c]:
    the frame check of the receive path, the padding of the transmit path,
    the work item that performs one SPI transaction, the interrupt handler
    that queues it, and the init / exit life cycle.

    Kernel services and sibling modules are calls into the environment:
    each is recorded in a trace, and whatever it returns is decided by an
    oracle that sees the trace so far. *)

From Stdlib Require Import ZArith List Lia.
From Stdlib Require Import Strings.Byte.
From stdpp Require Import base option list gmap strings.

Local Open Scope Z_scope.

(** ** Machine integers *)

Definition u16 (z : Z) : Z := z mod 2 ^ 16.
Definition u32 (z : Z) : Z := z mod 2 ^ 32.

(** errno values of <uapi/asm-generic/errno-base.h> *)
Definition ENOMEM : Z := 12.
Definition EFAULT : Z := 14.
Definition ENODEV : Z := 19.
Definition EINVAL : Z := 22.

(** ** Pointers

    A [ptr] is a valid kernel address; a C pointer that may be NULL is an
    [option]. *)
Definition ptr : Type := positive.

Definition is_null {A} (p : option A) : bool :=
  match p with None => true | Some _ => false end.

(** ** Socket buffers

    [skb_addr] is the address esp_alloc_skb returned, [skb_data] the bytes
    from skb->data up to skb->len. *)
Record sk_buff := mk_skb {
  skb_addr : ptr;
  skb_data : list byte;
}.

Definition skb_len (skb : sk_buff) : Z := Z.of_nat (length (skb_data skb)).

(** ** The adapter, as far as this file touches it *)
Record esp_adapter := mk_adapter {
  if_context : option ptr;
  if_ops : option ptr;
}.

Definition zero_adapter : esp_adapter := mk_adapter None None.

(** Addresses of the two statics the adapter is pointed at. *)
Definition addr_spi_context : ptr := 1%positive.
Definition addr_if_ops : ptr := 2%positive.

(** ** struct esp_spi_context

    The two sk_buff_head queues are the lists of buffers they hold, oldest
    first; [spi_work_pending] is the pending bit of the embedded work
    item. *)
Record esp_spi_context := mk_context {
  adapter : option ptr;
  esp_spi_dev : option ptr;
  tx_q : list sk_buff;
  rx_q : list sk_buff;
  spi_workqueue : option ptr;
  spi_work_pending : bool;
}.

(** memset(&spi_context, 0, sizeof(spi_context)). A list says what a queue
    holds, not whether its head can be linked to: the zeroed head of a
    queue is the empty list, as is a head set up by skb_queue_head_init.
    What is said of a queue after the memset is about its content only. *)
Definition zero_context : esp_spi_context :=
  mk_context None None [] [] None false.

(** ** Calls into the environment

    free_irq is the counterpart of request_irq; it is listed for what is
    said about it, no function of the file calls it. *)
Inductive call :=
| Cprintk (msg : string)
| Cesp_alloc_skb (len : Z)
| Cdev_kfree_skb (skb : ptr)
| Cspi_sync_transfer (dev : option ptr) (tx_buf : option (list byte))
                     (rx_buf : list byte) (len : Z)
| Cesp_process_new_packet_intr (a : option ptr)
| Ccreate_workqueue (name : string)
| Cdestroy_workqueue (wq : ptr)
| Cspi_busnum_to_master (bus_num : Z)
| Cspi_new_device (master : ptr)
| Cspi_setup (dev : option ptr)
| Cspi_unregister_device (dev : ptr)
| Cgpio_request (pin : Z)
| Cgpio_direction_input (pin : Z)
| Cgpio_free (pin : Z)
| Crequest_irq (irq : Z) (dev : option ptr)
| Cmsleep (ms : Z)
| Cesp_serial_init (a : option ptr)
| Cesp_serial_cleanup
| Cesp_add_card (a : option ptr)
| Cesp_remove_card (a : option ptr)
| Cesp_init_bt (a : option ptr)
| Cesp_deinit_bt (a : option ptr)
| Cfree_irq (irq : Z) (dev : option ptr).

Inductive retval :=
| RVoid
| RInt (z : Z)
| RPtr (p : option ptr).

Record event := Ev { ev_call : call; ev_ret : retval }.

(** ** The platform

    esp_spi.h and the declaration of struct esp_payload_header are not part
    of the sources at hand, so the constants they define are fields here,
    next to the oracles of the environment. *)
Record platform := {
  (** size of a transaction, and of every receive buffer *)
  SPI_BUF_SIZE : Z;
  (** sizeof(struct esp_payload_header) *)
  sizeof_header : Z;
  (** offsetof(struct esp_payload_header, len) *)
  offsetof_len : nat;
  (** offsetof(struct esp_payload_header, offset) *)
  offsetof_offset : nat;
  HANDSHAKE_PIN : Z;
  SPI_IRQ : Z;
  CONFIG_SUPPORT_ESP_SERIAL : bool;
  (** what a call returning a pointer returns, NULL being [None] *)
  ext_ptr : list event -> call -> option ptr;
  (** what a call returning an int returns *)
  ext_int : list event -> call -> Z;
  (** the bytes the peer clocks in during a transfer *)
  ext_bytes : list event -> call -> list byte;
  (** content of memory that was never written *)
  uninit : nat -> byte;
  (** adapter->hcidev, a field owned by the bluetooth module *)
  adapter_hcidev : list event -> ptr -> option ptr;
}.

(** ** The state of the module and of what it talks to *)
Record world := mk_world {
  spi_context : esp_spi_context;
  (** adapter objects by address; an address not in the map is an adapter
      whose fields this file has not written yet *)
  adapters : gmap ptr esp_adapter;
  (** how many times spi_work sits in the workqueue, waiting to run *)
  wq_queued : nat;
  trace : list event;
}.

Definition adapter_at (w : world) (a : ptr) : esp_adapter :=
  default zero_adapter (adapters w !! a).

Definition set_context (c : esp_spi_context) (w : world) : world :=
  mk_world c (adapters w) (wq_queued w) (trace w).

Definition set_tx_q (q : list sk_buff) (c : esp_spi_context) : esp_spi_context :=
  mk_context (adapter c) (esp_spi_dev c) q (rx_q c) (spi_workqueue c)
             (spi_work_pending c).

Definition set_rx_q (q : list sk_buff) (c : esp_spi_context) : esp_spi_context :=
  mk_context (adapter c) (esp_spi_dev c) (tx_q c) q (spi_workqueue c)
             (spi_work_pending c).

Definition set_adapter (a : option ptr) (c : esp_spi_context) : esp_spi_context :=
  mk_context a (esp_spi_dev c) (tx_q c) (rx_q c) (spi_workqueue c)
             (spi_work_pending c).

Definition set_esp_spi_dev (d : option ptr) (c : esp_spi_context) : esp_spi_context :=
  mk_context (adapter c) d (tx_q c) (rx_q c) (spi_workqueue c)
             (spi_work_pending c).

Definition set_spi_workqueue (q : option ptr) (c : esp_spi_context) : esp_spi_context :=
  mk_context (adapter c) (esp_spi_dev c) (tx_q c) (rx_q c) q
             (spi_work_pending c).

Definition set_spi_work_pending (b : bool) (c : esp_spi_context) : esp_spi_context :=
  mk_context (adapter c) (esp_spi_dev c) (tx_q c) (rx_q c) (spi_workqueue c) b.

(** ** Computations: state, and the faults C leaves undefined *)
Inductive fault :=
| NullDeref        (** a NULL pointer was dereferenced *)
| OutOfBounds.     (** a read past the bytes of a buffer *)

Inductive outcome (A : Type) :=
| Ok (a : A) (w : world)
| Fault (f : fault) (w : world).
Arguments Ok {A} a w.
Arguments Fault {A} f w.

Definition M (A : Type) : Type := world -> outcome A.

Definition ret {A} (a : A) : M A := fun w => Ok a w.

Definition bind {A B} (m : M A) (k : A -> M B) : M B :=
  fun w => match m w with
           | Ok a w' => k a w'
           | Fault f w' => Fault f w'
           end.

Definition crash {A} (f : fault) : M A := fun w => Fault f w.

Definition get_context : M esp_spi_context := fun w => Ok (spi_context w) w.

Definition modify_context (f : esp_spi_context -> esp_spi_context) : M unit :=
  fun w => Ok tt (set_context (f (spi_context w)) w).

Declare Scope spi_scope.
Delimit Scope spi_scope with spi.
Notation "x <- m ;; k" := (bind m (fun x => k))
  (at level 100, m at next level, right associativity) : spi_scope.
Notation "m ;;; k" := (bind m (fun _ => k))
  (at level 100, right associativity) : spi_scope.
Notation "'when' b 'then' m" := (if b then m else ret tt)
  (at level 100, no associativity) : spi_scope.
Local Open Scope spi_scope.

Definition log (e : event) (w : world) : world :=
  mk_world (spi_context w) (adapters w) (wq_queued w) (trace w ++ [e]).

Section Driver.

Context (P : platform).

(** *** External calls, by return type *)
Definition call_void (c : call) : M unit :=
  fun w => Ok tt (log (Ev c RVoid) w).

Definition call_int (c : call) : M Z :=
  fun w => let r := ext_int P (trace w) c in Ok r (log (Ev c (RInt r)) w).

Definition call_ptr (c : call) : M (option ptr) :=
  fun w => let r := ext_ptr P (trace w) c in Ok r (log (Ev c (RPtr r)) w).

Definition printk (msg : string) : M unit := call_void (Cprintk msg).

(** esp_alloc_skb(len): NULL, or an empty buffer with room for [len] bytes *)
Definition esp_alloc_skb (len : Z) : M (option sk_buff) :=
  p <- call_ptr (Cesp_alloc_skb len) ;;
  ret (match p with Some a => Some (mk_skb a []) | None => None end).

Definition dev_kfree_skb (skb : sk_buff) : M unit :=
  call_void (Cdev_kfree_skb (skb_addr skb)).

(** skb_put(skb, n): grows the data by [n] bytes nobody has written and
    returns where they start, as an index into the data. The room is there,
    esp_alloc_skb was asked for it, so the pointer is never NULL. *)
Definition skb_put (skb : option sk_buff) (n : Z) : M (sk_buff * option nat) :=
  match skb with
  | None => crash NullDeref
  | Some s =>
      let old := length (skb_data s) in
      ret (mk_skb (skb_addr s)
                  (skb_data s ++ map (uninit P) (seq old (Z.to_nat n))),
           Some old)
  end.

(** skb_trim(skb, len): cuts the data when it is longer than [len] *)
Definition skb_trim (skb : sk_buff) (len : Z) : sk_buff :=
  if len <? skb_len skb
  then mk_skb (skb_addr skb) (take (Z.to_nat len) (skb_data skb))
  else skb.

(** memcpy(dst + at, src, n), [src] being the memory from the source
    pointer on *)
Definition memcpy (dst : list byte) (at_ : nat) (src : nat -> byte) (n : Z)
  : list byte :=
  take at_ dst ++ map src (seq 0 (Z.to_nat n))
    ++ drop (at_ + Z.to_nat n) dst.

(** memset(dst + at, c, n) *)
Definition memset (dst : list byte) (at_ : nat) (c : byte) (n : Z) : list byte :=
  take at_ dst ++ repeat c (Z.to_nat n) ++ drop (at_ + Z.to_nat n) dst.

(** memcpy from a pointer that may be NULL. The source is all the memory
    from the pointer on: [n] says how far it is read, and a read never
    runs into memory that is not there. *)
Definition memcpy_from (dst : list byte) (at_ : nat)
    (src : option (nat -> byte)) (n : Z) : M (list byte) :=
  match src with
  | None => crash NullDeref
  | Some s => ret (memcpy dst at_ s n)
  end.

(** skb_queue_tail and skb_dequeue on the two queues of the context *)
Definition skb_queue_tail_tx (skb : sk_buff) : M unit :=
  modify_context (fun c => set_tx_q (tx_q c ++ [skb]) c).

Definition skb_queue_tail_rx (skb : sk_buff) : M unit :=
  modify_context (fun c => set_rx_q (rx_q c ++ [skb]) c).

Definition skb_dequeue_tx : M (option sk_buff) :=
  fun w => match tx_q (spi_context w) with
           | [] => Ok None w
           | skb :: q => Ok (Some skb) (set_context (set_tx_q q (spi_context w)) w)
           end.

Definition skb_dequeue_rx : M (option sk_buff) :=
  fun w => match rx_q (spi_context w) with
           | [] => Ok None w
           | skb :: q => Ok (Some skb) (set_context (set_rx_q q (spi_context w)) w)
           end.

(** *** spi_interrupt_handler

    queue_work(wq, work) tests and sets the pending bit of [work]: a work
    item that is already pending is left alone and the call returns false,
    otherwise the item is put on the queue. *)
Definition queue_work (wq : ptr) : M bool :=
  fun w =>
    if spi_work_pending (spi_context w) then Ok false w
    else Ok true (mk_world (set_spi_work_pending true (spi_context w))
                           (adapters w) (S (wq_queued w)) (trace w)).

Definition IRQ_HANDLED : Z := 1.

Definition spi_interrupt_handler (irq : Z) (dev : option ptr) : M Z :=
  c <- get_context ;;
  (* ESP32 is ready for next transaction *)
  (match spi_workqueue c with
   | Some wq => queue_work wq ;;; ret tt
   | None => ret tt
   end) ;;;
  ret IRQ_HANDLED.

(** *** read_packet

    adapter->if_context only ever holds the address of the one static
    context, which is the context of the world. *)
Definition read_packet (adapter : option ptr) : M (option sk_buff) :=
  fun w =>
  if match adapter with
     | None => true
     | Some a => is_null (if_context (adapter_at w a))
     end
  then (printk "read_packet: Invalid args" ;;; ret None) w
  else
    (context <- get_context ;;
     if is_null (esp_spi_dev context)
     then printk "read_packet: Invalid args" ;;; ret None
     else skb_dequeue_rx) w.

(** *** write_packet *)
Definition write_packet (adapter : option ptr) (buf : option (nat -> byte))
    (size : Z) : M Z :=
  fun w =>
  if match adapter with
     | None => true
     | Some a => is_null (if_context (adapter_at w a))
     end
     || is_null buf || (size =? 0) || (size >? SPI_BUF_SIZE P)
  then (printk "write_packet: Invalid args" ;;; ret (- EINVAL)) w
  else
    (* Adjust length to make it multiple of 4 bytes *)
    let size := u32 (size + (4 - Z.land size 3)) in
    (skb <- esp_alloc_skb size ;;
     match skb with
     | None => ret (- ENOMEM)
     | Some _ =>
         r <- skb_put skb size ;;
         let '(skb, tx_buf) := r in
         match tx_buf with
         | None =>
             dev_kfree_skb skb ;;;
             ret (- ENOMEM)
         | Some tx_buf =>
             d <- memcpy_from (skb_data skb) tx_buf buf size ;;
             (* Enqueue SKB in tx_q *)
             skb_queue_tail_tx (mk_skb (skb_addr skb) d) ;;;
             ret 0
         end
     end) w.

(** *** process_rx_buf *)

(** le16_to_cpu of the two bytes at index [i] *)
Definition get_le16 (d : list byte) (i : nat) : option Z :=
  match d !! i, d !! S i with
  | Some lo, Some hi =>
      Some (Z.of_N (Byte.to_N lo) + 256 * Z.of_N (Byte.to_N hi))
  | _, _ => None
  end.

Definition read_le16 (d : list byte) (i : nat) : M Z :=
  match get_le16 d i with
  | Some z => ret z
  | None => crash OutOfBounds
  end.

Definition process_rx_buf (skb : option sk_buff) : M Z :=
  match skb with
  | None => ret (- EINVAL)
  | Some skb =>
      let header := skb_data skb in
      offset <- read_le16 header (offsetof_offset P) ;;
      (* Validate received SKB. Check len and offset fields *)
      if negb (offset =? sizeof_header P) then ret (- EINVAL)
      else
        len <- read_le16 header (offsetof_len P) ;;
        if len =? 0 then ret (- EINVAL)
        else
          let len := u16 (len + sizeof_header P) in
          if len >? SPI_BUF_SIZE P then ret (- EINVAL)
          else
            (* Trim SKB to actual size *)
            let skb := skb_trim skb len in
            (* enqueue skb for read_packet to pick it *)
            skb_queue_tail_rx skb ;;;
            (* indicate reception of new packet *)
            c <- get_context ;;
            call_void (Cesp_process_new_packet_intr (adapter c)) ;;;
            ret 0
  end.

(** *** esp_spi_work *)

(** spi_sync_transfer(dev, &trans, 1) with trans.tx_buf, trans.rx_buf and
    trans.len: the status is the environment's, and so are the bytes that
    land in the receive buffer, which keeps its length. *)
Definition spi_sync_transfer (dev : option ptr) (tx_buf : option (list byte))
    (rx_buf : list byte) (len : Z) : M (Z * list byte) :=
  fun w =>
    let c := Cspi_sync_transfer dev tx_buf rx_buf len in
    let got := ext_bytes P (trace w) c in
    let status := ext_int P (trace w) c in
    Ok (status, take (length rx_buf) got ++ drop (length got) rx_buf)
       (log (Ev c (RInt status)) w).

Definition esp_spi_work : M unit :=
  (* Configure TX buffer if available *)
  tx_skb <- skb_dequeue_tx ;;
  let tx_buf := skb_data <$> tx_skb in
  (* Configure RX buffer *)
  rx_skb <- esp_alloc_skb (SPI_BUF_SIZE P) ;;
  r <- skb_put rx_skb (SPI_BUF_SIZE P) ;;
  let '(rx_skb, rx_buf) := r in
  match rx_buf with
  | None => crash NullDeref
  | Some rx_buf =>
      let rx_skb := mk_skb (skb_addr rx_skb)
                      (memset (skb_data rx_skb) rx_buf "000"%byte (SPI_BUF_SIZE P)) in
      c <- get_context ;;
      r <- spi_sync_transfer (esp_spi_dev c) tx_buf (skb_data rx_skb)
                             (SPI_BUF_SIZE P) ;;
      let '(status, received) := r in
      let rx_skb := mk_skb (skb_addr rx_skb) received in
      (when negb (status =? 0) then printk "SPI Transaction failed") ;;;
      (* Free rx_skb if received data is not valid *)
      e <- process_rx_buf (Some rx_skb) ;;
      (when negb (e =? 0) then dev_kfree_skb rx_skb) ;;;
      match tx_skb with
      | Some tx_skb => dev_kfree_skb tx_skb
      | None => ret tt
      end
  end.

(** *** The worker of the workqueue

    A worker takes a queued work item off the queue, clears its pending bit
    and runs its function. *)
Definition worker_run : M unit :=
  fun w =>
    match wq_queued w with
    | O => Ok tt w
    | S n =>
        esp_spi_work (mk_world (set_spi_work_pending false (spi_context w))
                               (adapters w) n (trace w))
    end.

Fixpoint drain_workqueue (n : nat) : M unit :=
  match n with
  | O => ret tt
  | S k => worker_run ;;; drain_workqueue k
  end.

(** destroy_workqueue(wq): work that is still queued is run before the
    queue goes away. *)
Definition destroy_workqueue (wq : ptr) : M unit :=
  call_void (Cdestroy_workqueue wq) ;;;
  (fun w => drain_workqueue (wq_queued w) w).

(** *** spi_exit *)
Definition spi_exit : M unit :=
  c <- get_context ;;
  (match spi_workqueue c with
   | Some wq => destroy_workqueue wq
   | None => ret tt
   end) ;;;
  call_void Cesp_serial_cleanup ;;;
  c <- get_context ;;
  call_void (Cesp_remove_card (adapter c)) ;;;
  c <- get_context ;;
  match adapter c with
  | None => crash NullDeref
  | Some a =>
      (fun w => (when negb (is_null (adapter_hcidev P (trace w) a))
                 then call_void (Cesp_deinit_bt (Some a))) w) ;;;
      call_void (Cgpio_free (HANDSHAKE_PIN P)) ;;;
      c <- get_context ;;
      (match esp_spi_dev c with
       | Some dev => call_void (Cspi_unregister_device dev)
       | None => ret tt
       end) ;;;
      modify_context (fun _ => zero_context)
  end.

(** *** spi_init *)

(** create_workqueue: NULL, or a fresh queue with nothing queued *)
Definition create_workqueue (name : string) : M (option ptr) :=
  q <- call_ptr (Ccreate_workqueue name) ;;
  fun w => Ok q (match q with
                 | Some _ => mk_world (spi_context w) (adapters w) O (trace w)
                 | None => w
                 end).

(** the shape all but the last failures have: log, tear down, return *)
Definition fail_with (msg : string) (err : Z) : M Z :=
  printk msg ;;; spi_exit ;;; ret err.

Definition spi_init : M Z :=
  let bus_num := 0 in
  wq <- create_workqueue "ESP_SPI_WORK_QUEUE" ;;
  modify_context (set_spi_workqueue wq) ;;;
  if is_null wq then spi_exit ;;; ret (- EFAULT)
  else
    (* INIT_WORK(&spi_context.spi_work, esp_spi_work) *)
    modify_context (set_spi_work_pending false) ;;;
    (* skb_queue_head_init of tx_q and rx_q *)
    modify_context (set_tx_q []) ;;;
    modify_context (set_rx_q []) ;;;
    master <- call_ptr (Cspi_busnum_to_master bus_num) ;;
    match master with
    | None => fail_with "Failed to obtain SPI master handle" (- ENODEV)
    | Some master =>
    dev <- call_ptr (Cspi_new_device master) ;;
    modify_context (set_esp_spi_dev dev) ;;;
    if is_null dev then fail_with "Failed to add new SPI device" (- ENODEV)
    else
    status <- call_int (Cspi_setup dev) ;;
    if negb (status =? 0) then fail_with "Failed to setup new SPI device" status
    else
    printk "ESP32 device is registered to SPI bus" ;;;
    status <- call_int (Cgpio_request (HANDSHAKE_PIN P)) ;;
    if negb (status =? 0) then fail_with "Failed to obtain GPIO" status
    else
    status <- call_int (Cgpio_direction_input (HANDSHAKE_PIN P)) ;;
    if negb (status =? 0) then fail_with "Failed to set GPIO direction" status
    else
    status <- call_int (Crequest_irq (SPI_IRQ P) dev) ;;
    if negb (status =? 0) then fail_with "Failed to request IRQ" status
    else
    call_void (Cmsleep 200) ;;;
    c <- get_context ;;
    status <- (if CONFIG_SUPPORT_ESP_SERIAL P
               then call_int (Cesp_serial_init (adapter c))
               else ret 0) ;;
    if negb (status =? 0)
    then spi_exit ;;; printk "Error initialising serial interface" ;;; ret status
    else
    status <- call_int (Cesp_add_card (adapter c)) ;;
    if negb (status =? 0)
    then spi_exit ;;; printk "Failed to add card" ;;; ret status
    else
    status <- call_int (Cesp_init_bt (adapter c)) ;;
    if negb (status =? 0)
    then spi_exit ;;; printk "Failed to init BT" ;;; ret status
    else
    call_void (Cmsleep 200) ;;;
    ret status
    end.

(** *** esp_init_interface_layer and esp_deinit_interface_layer *)
Definition esp_init_interface_layer (adapter : option ptr) : M Z :=
  match adapter with
  | None => ret (- EINVAL)
  | Some a =>
      modify_context (fun _ => zero_context) ;;;
      (fun w => Ok tt (mk_world (spi_context w)
                         (<[a := mk_adapter (Some addr_spi_context)
                                            (Some addr_if_ops)]> (adapters w))
                         (wq_queued w) (trace w))) ;;;
      modify_context (set_adapter (Some a)) ;;;
      spi_init
  end.

Definition esp_deinit_interface_layer : M unit := spi_exit.

End Driver.

(** * What the properties speak about *)

(** ** Boards to run the driver on *)

(** Modelled from the spec: esp_spi.h and the declaration of struct
    esp_payload_header are missing from the sources. The header is 4 bytes,
    with the 16-bit offset field at byte 0 and the 16-bit length field at
    byte 2 (sections 3 and 6); the maximum frame size is a platform constant
    for which 1600 is taken. The pin and interrupt numbers play no role. *)
Definition board (xptr : list event -> call -> option ptr)
    (xint : list event -> call -> Z)
    (xbytes : list event -> call -> list byte)
    (xhci : list event -> ptr -> option ptr) : platform :=
  {| SPI_BUF_SIZE := 1600;
     sizeof_header := 4;
     offsetof_len := 2;
     offsetof_offset := 0;
     HANDSHAKE_PIN := 22;
     SPI_IRQ := 182;
     CONFIG_SUPPORT_ESP_SERIAL := true;
     ext_ptr := xptr;
     ext_int := xint;
     ext_bytes := xbytes;
     uninit := fun _ => "165"%byte;
     adapter_hcidev := xhci |}.

(** An allocator that hands out a new address at every call. *)
Definition next_addr (h : list event) (c : call) : option ptr :=
  Some (Pos.of_succ_nat (length h)).

(** An environment in which everything succeeds and the peer is silent. *)
Definition calm_board : platform :=
  board next_addr (fun _ _ => 0) (fun _ _ => []) (fun _ _ => None).

(** The same, out of memory. *)
Definition oom_board : platform :=
  board (fun _ _ => None) (fun _ _ => 0) (fun _ _ => []) (fun _ _ => None).

(** What the constants of a platform have to satisfy: the two header fields
    lie inside the header, a header fits a buffer, and a padded size fits
    a u32. *)
Record platform_ok (P : platform) : Prop := {
  offset_in_header : Z.of_nat (offsetof_offset P) + 2 <= sizeof_header P;
  len_in_header : Z.of_nat (offsetof_len P) + 2 <= sizeof_header P;
  header_fits : sizeof_header P <= SPI_BUF_SIZE P;
  buf_size_u32 : SPI_BUF_SIZE P + 4 < 2 ^ 32;
}.

(** A world that has been initialised for adapter 7: device 9, workqueue 8,
    empty queues. *)
Definition adapter7 : ptr := 7%positive.

Definition running_context : esp_spi_context :=
  mk_context (Some adapter7) (Some 9%positive) [] [] (Some 8%positive) false.

Definition running_world : world :=
  mk_world running_context
           {[ adapter7 := mk_adapter (Some addr_spi_context) (Some addr_if_ops) ]}
           O [].

(** ** Padding *)

Definition padded (size : Z) : Z := size + (4 - size mod 4).

(** ** write_packet *)

(** when the argument check of write_packet turns a call down *)
Definition write_args_invalid (P : platform) (w : world) (a : option ptr)
    (buf : option (nat -> byte)) (size : Z) : Prop :=
  a = None
  \/ (exists p, a = Some p /\ if_context (adapter_at w p) = None)
  \/ buf = None \/ size = 0 \/ size > SPI_BUF_SIZE P.

(** what an accepted call leaves behind *)
Definition accepted_world (P : platform) (w : world) (size : Z) (p : ptr)
    (data : list byte) : world :=
  set_context (set_tx_q (tx_q (spi_context w) ++ [mk_skb p data]) (spi_context w))
    (log (Ev (Cesp_alloc_skb (padded size)) (RPtr (Some p))) w).

(** The check of C3 as the specification words it: -EINVAL exactly for an
    empty payload or one whose padded size is larger than a buffer, the
    pointers being good. *)
Definition rejects_by_padded_size (P : platform) : Prop :=
  forall w a src size,
    0 <= size < 2 ^ 32 ->
    if_context (adapter_at w a) <> None ->
    (exists w', write_packet P (Some a) (Some src) size w = Ok (- EINVAL) w')
    <-> (size = 0 \/ padded size > SPI_BUF_SIZE P).

(** Two callers with the same three bytes of payload and a different byte
    behind it. *)
Definition payload_then (b : byte) : nat -> byte :=
  fun i => if (i <? 3)%nat then "001"%byte else b.

(** ** process_rx_buf *)

(** What the checks of process_rx_buf make of the bytes of a buffer: the
    length the buffer is trimmed to, or nothing when it is turned down. *)
Definition frame_length (P : platform) (d : list byte) : option Z :=
  match get_le16 d (offsetof_offset P), get_le16 d (offsetof_len P) with
  | Some offset, Some len =>
      if negb (offset =? sizeof_header P) then None
      else if len =? 0 then None
      else if u16 (len + sizeof_header P) >? SPI_BUF_SIZE P then None
      else Some (u16 (len + sizeof_header P))
  | _, _ => None
  end.

Definition notify_of (w : world) : event :=
  Ev (Cesp_process_new_packet_intr (adapter (spi_context w))) RVoid.

Definition delivered (w : world) (skb : sk_buff) : world :=
  log (notify_of w)
      (set_context (set_rx_q (rx_q (spi_context w) ++ [skb]) (spi_context w)) w).

(** A receive buffer whose header has the right offset and the length
    0xffff. *)
Definition wrap_skb : sk_buff :=
  mk_skb 5%positive
    (["004"; "000"; "255"; "255"]%byte ++ repeat "000"%byte 1596).

(** ** esp_spi_work *)

(** how many SPI transfers a trace holds *)
Definition is_exchange (e : event) : bool :=
  match ev_call e with
  | Cspi_sync_transfer _ _ _ _ => true
  | _ => false
  end.

Definition exchanges (t : list event) : nat := length (filter is_exchange t).

Definition kfree_of (skb : sk_buff) : event :=
  Ev (Cdev_kfree_skb (skb_addr skb)) RVoid.

Definition alloc_rx_of (P : platform) (r : option ptr) : event :=
  Ev (Cesp_alloc_skb (SPI_BUF_SIZE P)) (RPtr r).

(** the receive buffer of an activation as it is handed to the transfer *)
Definition zeroed (P : platform) : list byte :=
  repeat "000"%byte (Z.to_nat (SPI_BUF_SIZE P)).

(** the transfer an activation asks for in world [w] *)
Definition exchange_of (P : platform) (w : world) : call :=
  Cspi_sync_transfer (esp_spi_dev (spi_context w))
    (skb_data <$> head (tx_q (spi_context w))) (zeroed P) (SPI_BUF_SIZE P).

(** status and received bytes of that transfer, the receive buffer having
    been allocated *)
Definition exchange_status (P : platform) (w : world) (p : ptr) : Z :=
  ext_int P (trace w ++ [alloc_rx_of P (Some p)]) (exchange_of P w).

Definition exchange_bytes (P : platform) (w : world) (p : ptr) : list byte :=
  let got := ext_bytes P (trace w ++ [alloc_rx_of P (Some p)]) (exchange_of P w) in
  take (length (zeroed P)) got ++ drop (length got) (zeroed P).

(** the events of one activation, in order *)
Definition activation_events (P : platform) (w : world) (p : ptr) : list event :=
  [alloc_rx_of P (Some p);
   Ev (exchange_of P w) (RInt (exchange_status P w p))]
  ++ (if exchange_status P w p =? 0 then []
      else [Ev (Cprintk "SPI Transaction failed") RVoid])
  ++ match frame_length P (exchange_bytes P w p) with
     | Some _ => [notify_of w]
     | None => [kfree_of (mk_skb p (exchange_bytes P w p))]
     end
  ++ match head (tx_q (spi_context w)) with
     | Some tx_skb => [kfree_of tx_skb]
     | None => []
     end.

(** what an activation adds to rx_q *)
Definition activation_rx (P : platform) (w : world) (p : ptr) : list sk_buff :=
  match frame_length P (exchange_bytes P w p) with
  | Some len => [skb_trim (mk_skb p (exchange_bytes P w p)) len]
  | None => []
  end.

Definition after_activation (P : platform) (w : world) (p : ptr) : world :=
  mk_world
    (set_rx_q (rx_q (spi_context w) ++ activation_rx P w p)
       (set_tx_q (tail (tx_q (spi_context w))) (spi_context w)))
    (adapters w) (wq_queued w)
    (trace w ++ activation_events P w p).

(** What C4 says of every activation: it ends, and has made one exchange. *)
Definition every_activation_exchanges (P : platform) : Prop :=
  forall w, exists w',
    esp_spi_work P w = Ok tt w' /\
    exchanges (trace w') = S (exchanges (trace w)).

(** One frame waiting in tx_q. *)
Definition first_frame : sk_buff :=
  mk_skb 3%positive ["001"; "002"; "003"; "000"]%byte.

Definition one_to_send : world :=
  set_context (set_tx_q [first_frame] running_context) running_world.

(** the world an activation stops in when esp_alloc_skb returns NULL *)
Definition stopped_at_skb_put (P : platform) (w : world) : world :=
  log (alloc_rx_of P None)
      (set_context (set_tx_q (tail (tx_q (spi_context w))) (spi_context w)) w).

(** ** The interrupt handler and the workqueue *)

(** The pending bit of spi_work and the workqueue agree: the item is queued
    once when the bit is set and not at all when it is clear. *)
Definition wq_consistent (w : world) : Prop :=
  wq_queued w = if spi_work_pending (spi_context w) then 1%nat else 0%nat.

(** the world an edge leaves behind *)
Definition after_edge (w : world) : world :=
  match spi_workqueue (spi_context w) with
  | None => w
  | Some _ =>
      if spi_work_pending (spi_context w) then w
      else mk_world (set_spi_work_pending true (spi_context w))
                    (adapters w) (S (wq_queued w)) (trace w)
  end.

(** [n] edges in a row *)
Fixpoint edges (n : nat) (irq : Z) (dev : option ptr) : M unit :=
  match n with
  | O => ret tt
  | S k => spi_interrupt_handler irq dev ;;; edges k irq dev
  end.

(** ** The worker *)

(** What can happen while the transport runs: an edge, a turn of the
    worker, a packet written or read. *)
Inductive runtime_step (P : platform) : world -> world -> Prop :=
| step_edge irq dev w r w' :
    spi_interrupt_handler irq dev w = Ok r w' -> runtime_step P w w'
| step_worker w w' :
    worker_run P w = Ok tt w' -> runtime_step P w w'
| step_write a buf size w r w' :
    write_packet P a buf size w = Ok r w' -> runtime_step P w w'
| step_read a w r w' :
    read_packet a w = Ok r w' -> runtime_step P w w'.

Inductive runtime_steps (P : platform) : world -> world -> Prop :=
| steps_none w : runtime_steps P w w
| steps_more w w1 w2 :
    runtime_steps P w w1 -> runtime_step P w1 w2 -> runtime_steps P w w2.

(** ** spi_exit *)

(** The two halves of spi_exit: the workqueue, and everything else. *)
Definition stop_scheduler (P : platform) : M unit :=
  c <- get_context ;;
  match spi_workqueue c with
  | Some wq => destroy_workqueue P wq
  | None => ret tt
  end.

Definition release_resources (P : platform) : M unit :=
  call_void Cesp_serial_cleanup ;;;
  c <- get_context ;;
  call_void (Cesp_remove_card (adapter c)) ;;;
  c <- get_context ;;
  match adapter c with
  | None => crash NullDeref
  | Some a =>
      (fun w => (when negb (is_null (adapter_hcidev P (trace w) a))
                 then call_void (Cesp_deinit_bt (Some a))) w) ;;;
      call_void (Cgpio_free (HANDSHAKE_PIN P)) ;;;
      c <- get_context ;;
      (match esp_spi_dev c with
       | Some dev => call_void (Cspi_unregister_device dev)
       | None => ret tt
       end) ;;;
      modify_context (fun _ => zero_context)
  end.

(** the events of the second half, for an adapter that is there *)
Definition release_events (P : platform) (w : world) (a : ptr) : list event :=
  [Ev Cesp_serial_cleanup RVoid; Ev (Cesp_remove_card (Some a)) RVoid]
  ++ (if is_null (adapter_hcidev P
                    (trace w ++ [Ev Cesp_serial_cleanup RVoid;
                                 Ev (Cesp_remove_card (Some a)) RVoid]) a)
      then [] else [Ev (Cesp_deinit_bt (Some a)) RVoid])
  ++ [Ev (Cgpio_free (HANDSHAKE_PIN P)) RVoid]
  ++ match esp_spi_dev (spi_context w) with
     | Some dev => [Ev (Cspi_unregister_device dev) RVoid]
     | None => []
     end.

Definition released (P : platform) (w : world) (a : ptr) : world :=
  mk_world zero_context (adapters w) (wq_queued w)
           (trace w ++ release_events P w a).


(** the first half, when no activation is queued *)
Definition stopped_idle (w : world) : world :=
  match spi_workqueue (spi_context w) with
  | Some wq => log (Ev (Cdestroy_workqueue wq) RVoid) w
  | None => w
  end.

(** the calls by which spi_exit hands things back *)
Definition releasing (e : event) : bool :=
  match ev_call e with
  | Cdestroy_workqueue _ | Cesp_serial_cleanup | Cesp_remove_card _
  | Cesp_deinit_bt _ | Cgpio_free _ | Cspi_unregister_device _ => true
  | _ => false
  end.

Definition calls_free_irq (e : event) : bool :=
  match ev_call e with Cfree_irq _ _ => true | _ => false end.


(** A frame waiting in each queue at the time of spi_exit. *)
Definition left_over : world :=
  set_context
    (set_rx_q [mk_skb 4%positive ["004"; "000"; "001"; "000"; "042"]%byte]
       (set_tx_q [first_frame] running_context))
    running_world.

(** ** spi_init and esp_init_interface_layer *)





(** the world in which esp_init_interface_layer calls spi_init *)
Definition bound_to (a : ptr) (w : world) : world :=
  mk_world (set_adapter (Some a) zero_context)
           (<[a := mk_adapter (Some addr_spi_context) (Some addr_if_ops)]>
              (adapters w))
           (wq_queued w) (trace w).





Definition fresh_world : world := mk_world zero_context ∅ O [].


(** ** Reading, ordering and the life cycle *)

(** when read_packet turns a call down before it looks at the context *)
Definition read_args_invalid (w : world) (a : option ptr) : Prop :=
  a = None \/ exists p, a = Some p /\ if_context (adapter_at w p) = None.




(** A context set up by a successful initialisation for adapter [a]: the
    handles it holds are the ones the calls in the trace returned, the
    queues are empty and nothing is queued on the workqueue. *)
Record initialised (P : platform) (a : ptr) (w : world) : Prop := {
  init_adapter : adapter (spi_context w) = Some a;
  init_bound :
    adapter_at w a = mk_adapter (Some addr_spi_context) (Some addr_if_ops);
  init_workqueue :
    exists wq,
      spi_workqueue (spi_context w) = Some wq /\
      In (Ev (Ccreate_workqueue "ESP_SPI_WORK_QUEUE") (RPtr (Some wq)))
         (trace w);
  init_device :
    exists master dev,
      esp_spi_dev (spi_context w) = Some dev /\
      In (Ev (Cspi_new_device master) (RPtr (Some dev))) (trace w) /\
      In (Ev (Crequest_irq (SPI_IRQ P) (Some dev)) (RInt 0)) (trace w);
  init_gpio : In (Ev (Cgpio_request (HANDSHAKE_PIN P)) (RInt 0)) (trace w);
  init_tx_q : tx_q (spi_context w) = [];
  init_rx_q : rx_q (spi_context w) = [];
  init_idle : spi_work_pending (spi_context w) = false /\ wq_queued w = 0%nat;
}.

(** what holds of the world an initialisation returns 0 in *)
Definition on_success (Q : world -> Prop) (o : outcome Z) : Prop :=
  match o with
  | Ok r w' => r = 0 -> Q w'
  | Fault _ _ => True
  end.

(** A frame of five payload bytes behind a four-byte header, in a receive
    buffer. *)
Definition five_byte_frame : sk_buff :=
  mk_skb 6%positive
    (["004"; "000"; "005"; "000"; "170"; "171"; "172"; "173"; "174"]%byte
       ++ repeat "000"%byte 1591).


(** a queue that has only lost its head or gained at its tail *)
Definition fifo_move (q q' : list sk_buff) : Prop :=
  (exists more, q' = q ++ more) \/ (exists skb, q = skb :: q').

(** A board on which the bluetooth module has registered a device. *)
Definition bt_board : platform :=
  board next_addr (fun _ _ => 0) (fun _ _ => [])
        (fun _ _ => Some 11%positive).

(** * Properties *)

(** ** Platforms *)

Lemma board_ok xptr xint xbytes xhci : platform_ok (board xptr xint xbytes xhci).
Proof. split; simpl; lia. Qed.

(** ** Padding *)

Lemma land_3 z : Z.land z 3 = z mod 4.
Proof. change 3 with (Z.ones 2). rewrite Z.land_ones by lia. reflexivity. Qed.

Lemma padded_gt size : size < padded size <= size + 4.
Proof. unfold padded. pose proof (Z.mod_pos_bound size 4). lia. Qed.

Lemma padded_mod4 size : padded size mod 4 = 0.
Proof.
  unfold padded.
  replace (size + (4 - size mod 4)) with ((size - size mod 4) + 1 * 4) by lia.
  rewrite Z.mod_add by lia.
  rewrite Zminus_mod, Z.mod_mod, Z.sub_diag by lia. reflexivity.
Qed.

Lemma u32_padded P size :
  platform_ok P -> 0 <= size <= SPI_BUF_SIZE P ->
  u32 (size + (4 - Z.land size 3)) = padded size.
Proof.
  intros HP Hs. rewrite land_3. fold (padded size). unfold u32.
  pose proof (padded_gt size). pose proof (buf_size_u32 P HP).
  apply Z.mod_small. lia.
Qed.

(** ** write_packet *)

Lemma write_guard_spec P w a buf size :
  (match a with
   | None => true
   | Some p => is_null (if_context (adapter_at w p))
   end || is_null buf || (size =? 0) || (size >? SPI_BUF_SIZE P)) = true
  <-> write_args_invalid P w a buf size.
Proof.
  unfold write_args_invalid.
  rewrite !orb_true_iff, Z.eqb_eq, Z.gtb_ltb, Z.ltb_lt.
  split.
  - intros [[[H | H] | H] | H]; auto.
    + destruct a as [p|]; auto. right; left. exists p. split; auto.
      destruct (if_context (adapter_at w p)); [discriminate | reflexivity].
    + destruct buf; [discriminate | auto].
    + right; right; right; right. lia.
  - intros [H | [(p & -> & H) | [H | [H | H]]]]; subst; auto.
    + left; left; left. rewrite H. reflexivity.
    + right. lia.
Qed.

Lemma write_packet_invalid P w a buf size :
  write_args_invalid P w a buf size ->
  write_packet P a buf size w
  = Ok (- EINVAL) (log (Ev (Cprintk "write_packet: Invalid args") RVoid) w).
Proof.
  intros H. apply write_guard_spec in H. unfold write_packet. rewrite H.
  reflexivity.
Qed.

Lemma write_packet_valid P w a buf size :
  platform_ok P -> 0 <= size ->
  ~ write_args_invalid P w a buf size ->
  exists src, buf = Some src /\
  write_packet P a buf size w =
    match ext_ptr P (trace w) (Cesp_alloc_skb (padded size)) with
    | None => Ok (- ENOMEM) (log (Ev (Cesp_alloc_skb (padded size)) (RPtr None)) w)
    | Some p =>
        Ok 0 (accepted_world P w size p
                (map src (seq 0 (Z.to_nat (padded size)))))
    end.
Proof.
  intros HP Hs H.
  assert (Hle : size <= SPI_BUF_SIZE P).
  { destruct (Z.le_gt_cases size (SPI_BUF_SIZE P)); [assumption|].
    exfalso. apply H. unfold write_args_invalid. intuition lia. }
  destruct buf as [src|].
  2: { exfalso. apply H. unfold write_args_invalid. auto. }
  exists src. split; [reflexivity|].
  rewrite <- write_guard_spec in H. apply not_true_is_false in H.
  unfold write_packet. rewrite H.
  rewrite (u32_padded P size HP) by lia.
  unfold bind, esp_alloc_skb, call_ptr, bind, ret.
  destruct (ext_ptr P (trace w) (Cesp_alloc_skb (padded size))) as [p|];
    [|reflexivity].
  cbn. unfold accepted_world, memcpy. cbn.
  rewrite drop_ge by (rewrite length_map, length_seq; lia).
  rewrite app_nil_r. reflexivity.
Qed.

Lemma write_packet_never_einval P w a buf size w' :
  ~ write_args_invalid P w a buf size ->
  write_packet P a buf size w <> Ok (- EINVAL) w'.
Proof.
  intros H. rewrite <- write_guard_spec in H. apply not_true_is_false in H.
  unfold write_packet. rewrite H.
  unfold bind, esp_alloc_skb, call_ptr, bind, ret.
  destruct (ext_ptr P _ _); cbn; [|discriminate].
  destruct buf; cbn; discriminate.
Qed.

Lemma write_packet_accepted_inv P w a buf size w' :
  platform_ok P -> 0 <= size ->
  write_packet P a buf size w = Ok 0 w' ->
  exists src p,
    buf = Some src /\
    ext_ptr P (trace w) (Cesp_alloc_skb (padded size)) = Some p /\
    w' = accepted_world P w size p (map src (seq 0 (Z.to_nat (padded size)))).
Proof.
  intros HP Hs Hrun.
  destruct (match a with
            | None => true
            | Some p => is_null (if_context (adapter_at w p))
            end || is_null buf || (size =? 0) || (size >? SPI_BUF_SIZE P))
    eqn:Hg.
  - apply write_guard_spec in Hg.
    rewrite (write_packet_invalid P w a buf size Hg) in Hrun. discriminate.
  - assert (Hv : ~ write_args_invalid P w a buf size).
    { rewrite <- write_guard_spec, Hg. discriminate. }
    destruct (write_packet_valid P w a buf size HP Hs Hv) as (src & -> & Heq).
    rewrite Heq in Hrun.
    destruct (ext_ptr P (trace w) (Cesp_alloc_skb (padded size))) as [p|];
      [|discriminate].
    exists src, p. repeat split. congruence.
Qed.



(** A payload of exactly SPI_BUF_SIZE bytes is accepted although its padded
    size, 1604, is larger than the 1600 of a buffer. *)
Lemma full_size_payload_accepted : ~ rejects_by_padded_size calm_board.
Proof.
  intros H.
  destruct (H running_world adapter7 (fun _ => "001"%byte) 1600) as [_ Hback].
  - lia.
  - discriminate.
  - destruct Hback as [w' Hw']; [right; reflexivity|].
    revert Hw'. apply write_packet_never_einval.
    unfold write_args_invalid. cbn.
    intros [H1 | [(p & Hp & H2) | [H3 | [H4 | H5]]]]; try discriminate;
      try lia.
    injection Hp as <-. vm_compute in H2. discriminate.
Qed.

(** C3, amended: write_packet returns -EINVAL exactly when its check on the
    arguments fails, and that check looks at the size before padding: a
    NULL adapter, context or buffer, a zero size, or a size above
    SPI_BUF_SIZE. A payload whose padded size fits is therefore never
    turned down, given good pointers and a nonzero size. *)
Theorem write_packet_einval_iff P w a buf size :
  ((exists w', write_packet P a buf size w = Ok (- EINVAL) w')
   <-> write_args_invalid P w a buf size)
  /\
  (forall p src,
     a = Some p -> if_context (adapter_at w p) <> None -> buf = Some src ->
     size <> 0 -> padded size <= SPI_BUF_SIZE P ->
     forall w', write_packet P a buf size w <> Ok (- EINVAL) w').
Proof.
  split.
  - split.
    + intros [w' Hw'].
      destruct (match a with
                | None => true
                | Some p => is_null (if_context (adapter_at w p))
                end || is_null buf || (size =? 0) || (size >? SPI_BUF_SIZE P))
        eqn:Hg.
      * apply write_guard_spec. exact Hg.
      * exfalso. revert Hw'. apply write_packet_never_einval.
        rewrite <- write_guard_spec, Hg. discriminate.
    + intros H. eexists. apply write_packet_invalid. exact H.
  - intros p src -> Hctx -> Hnz Hfit w'.
    apply write_packet_never_einval.
    pose proof (padded_gt size).
    intros [H1 | [(q & Hq & H2) | [H3 | [H4 | H5]]]]; try discriminate;
      try lia.
    injection Hq as <-. contradiction.
Qed.

Lemma write_packet_einval_iff_witness :
  write_packet calm_board (Some adapter7) (Some (fun _ => "001"%byte)) 1596
               running_world
  <> Ok (- EINVAL) running_world.
Proof.
  destruct (write_packet_einval_iff calm_board running_world (Some adapter7)
              (Some (fun _ => "001"%byte)) 1596) as [_ H].
  apply (H adapter7 (fun _ => "001"%byte)).
  - reflexivity.
  - vm_compute. discriminate.
  - reflexivity.
  - lia.
  - vm_compute. discriminate.
Defined.

(** C10: what write_packet copies into the frame it queues are the first
    [padded size] bytes at [buf], the size having been rounded up before the
    memcpy; the byte of the frame at index [size] is the byte of the
    caller's memory right after the payload. *)
Theorem write_packet_copies_padded_size P w a buf size w' :
  platform_ok P -> 0 <= size ->
  write_packet P a buf size w = Ok 0 w' ->
  exists src skb,
    buf = Some src /\
    tx_q (spi_context w') = tx_q (spi_context w) ++ [skb] /\
    skb_data skb = map src (seq 0 (Z.to_nat (padded size))) /\
    size < padded size /\
    nth_error (skb_data skb) (Z.to_nat size) = Some (src (Z.to_nat size)).
Proof.
  intros HP Hs Hrun.
  destruct (write_packet_accepted_inv P w a buf size w' HP Hs Hrun)
    as (src & p & -> & _ & ->).
  exists src, (mk_skb p (map src (seq 0 (Z.to_nat (padded size))))).
  pose proof (padded_gt size) as Hgt.
  repeat split; try lia.
  cbn. rewrite nth_error_map, nth_error_seq.
  destruct (Nat.ltb_spec (Z.to_nat size) (Z.to_nat (padded size))) as [_|Hge];
    [reflexivity | lia].
Qed.

Lemma write_packet_copies_padded_size_witness :
  exists w1 w2,
    write_packet calm_board (Some adapter7) (Some (payload_then "000")) 3
                 running_world = Ok 0 w1 /\
    write_packet calm_board (Some adapter7) (Some (payload_then "255")) 3
                 running_world = Ok 0 w2 /\
    (forall i, (i < 3)%nat -> payload_then "000" i = payload_then "255" i) /\
    (exists skb, tx_q (spi_context w1) = [skb] /\
                 nth_error (skb_data skb) 3 = Some "000"%byte) /\
    (exists skb, tx_q (spi_context w2) = [skb] /\
                 nth_error (skb_data skb) 3 = Some "255"%byte).
Proof.
  do 2 eexists. split; [reflexivity|]. split; [reflexivity|]. split.
  - intros i Hi. unfold payload_then.
    destruct (Nat.ltb_spec i 3); [reflexivity | lia].
  - split.
    + destruct (write_packet_copies_padded_size calm_board running_world
                  (Some adapter7) (Some (payload_then "000")) 3 _
                  (board_ok _ _ _ _) ltac:(lia) eq_refl)
        as (src & skb & Hsrc & Hq & _ & _ & Hnth).
      injection Hsrc as <-. exists skb. split; [exact Hq | exact Hnth].
    + destruct (write_packet_copies_padded_size calm_board running_world
                  (Some adapter7) (Some (payload_then "255")) 3 _
                  (board_ok _ _ _ _) ltac:(lia) eq_refl)
        as (src & skb & Hsrc & Hq & _ & _ & Hnth).
      injection Hsrc as <-. exists skb. split; [exact Hq | exact Hnth].
Defined.

(** ** process_rx_buf *)

Lemma get_le16_range d i z : get_le16 d i = Some z -> 0 <= z < 2 ^ 16.
Proof.
  unfold get_le16. destruct (d !! i) as [lo|]; [|discriminate].
  destruct (d !! S i) as [hi|]; [|discriminate].
  intros [= <-].
  pose proof (Byte.to_N_bounded lo). pose proof (Byte.to_N_bounded hi). lia.
Qed.

Lemma get_le16_is_Some (d : list byte) i :
  (S i < length d)%nat -> exists z, get_le16 d i = Some z.
Proof.
  intros H. unfold get_le16.
  destruct (lookup_lt_is_Some_2 d i) as [lo ->]; [lia|].
  destruct (lookup_lt_is_Some_2 d (S i)) as [hi ->]; [lia|].
  eauto.
Qed.

Lemma process_rx_buf_run P w skb :
  (S (offsetof_offset P) < length (skb_data skb))%nat ->
  (S (offsetof_len P) < length (skb_data skb))%nat ->
  process_rx_buf P (Some skb) w =
    match frame_length P (skb_data skb) with
    | Some len => Ok 0 (delivered w (skb_trim skb len))
    | None => Ok (- EINVAL) w
    end.
Proof.
  intros Ho Hl.
  destruct (get_le16_is_Some _ _ Ho) as [offset Hoff].
  destruct (get_le16_is_Some _ _ Hl) as [len Hlen].
  unfold process_rx_buf, frame_length, read_le16, bind.
  rewrite Hoff, Hlen. cbn.
  destruct (offset =? sizeof_header P); cbn; [|reflexivity].
  destruct (len =? 0); [reflexivity|].
  destruct (u16 (len + sizeof_header P) >? SPI_BUF_SIZE P); reflexivity.
Qed.

(** The checks in terms of the two header fields. The sum of length and
    header size is taken in 16 bits before it is compared. *)
Lemma frame_length_Some P d offset len l :
  get_le16 d (offsetof_offset P) = Some offset ->
  get_le16 d (offsetof_len P) = Some len ->
  frame_length P d = Some l <->
  offset = sizeof_header P /\ len <> 0 /\
  l = (len + sizeof_header P) mod 2 ^ 16 /\ l <= SPI_BUF_SIZE P.
Proof.
  intros Hoff Hlen. unfold frame_length. rewrite Hoff, Hlen. unfold u16.
  destruct (Z.eqb_spec offset (sizeof_header P)) as [He|He]; cbn.
  2: { split; [discriminate | tauto]. }
  destruct (Z.eqb_spec len 0) as [Hz|Hz].
  { split; [discriminate | tauto]. }
  rewrite Z.gtb_ltb.
  destruct (Z.ltb_spec (SPI_BUF_SIZE P) ((len + sizeof_header P) mod 2 ^ 16)).
  - split; [discriminate | lia].
  - split; [intros [= <-]; auto | intros (_ & _ & -> & _); reflexivity].
Qed.

(** As long as length plus header size stays below 2^16, a buffer is turned
    down exactly for a wrong offset, a zero length, or a frame larger than a
    buffer. *)
Lemma frame_length_no_wrap P d offset len :
  get_le16 d (offsetof_offset P) = Some offset ->
  get_le16 d (offsetof_len P) = Some len ->
  0 <= sizeof_header P -> len + sizeof_header P < 2 ^ 16 ->
  frame_length P d = None <->
  offset <> sizeof_header P \/ len = 0 \/ sizeof_header P + len > SPI_BUF_SIZE P.
Proof.
  intros Hoff Hlen Hh Hw.
  pose proof (get_le16_range _ _ _ Hlen) as Hr.
  assert (Hs : forall l, frame_length P d = Some l <->
             offset = sizeof_header P /\ len <> 0 /\
             l = len + sizeof_header P /\ l <= SPI_BUF_SIZE P).
  { intros l. rewrite (frame_length_Some P d offset len l Hoff Hlen).
    rewrite Z.mod_small by lia. reflexivity. }
  split.
  - intros Hnone.
    destruct (Z.eq_dec offset (sizeof_header P)); [|auto].
    destruct (Z.eq_dec len 0); [auto|].
    right; right.
    destruct (Z_gt_le_dec (sizeof_header P + len) (SPI_BUF_SIZE P)); [assumption|].
    exfalso.
    assert (frame_length P d = Some (len + sizeof_header P)) by (apply Hs; lia).
    congruence.
  - intros H. destruct (frame_length P d) as [l|] eqn:Hf; [|reflexivity].
    destruct (proj1 (Hs l) eq_refl) as (? & ? & ? & ?). lia.
Qed.

(** Whatever the size of the header and of a buffer, a length field of
    0xffff passes the checks: the sum wraps to the header size minus 1. *)
Lemma frame_length_wraps P d :
  0 < sizeof_header P <= SPI_BUF_SIZE P -> sizeof_header P < 2 ^ 16 ->
  get_le16 d (offsetof_offset P) = Some (sizeof_header P) ->
  get_le16 d (offsetof_len P) = Some 65535 ->
  frame_length P d = Some (sizeof_header P - 1).
Proof.
  intros Hh Hlt Hoff Hlen.
  apply (frame_length_Some P d _ _ _ Hoff Hlen).
  repeat split; try lia.
  replace (65535 + sizeof_header P) with ((sizeof_header P - 1) + 1 * 2 ^ 16)
    by lia.
  rewrite Z.mod_add by lia. rewrite Z.mod_small by lia. reflexivity.
Qed.

(** C1: a frame that declares 65535 bytes of payload is far larger than a
    buffer of 1600 bytes, yet process_rx_buf takes it: the sum with the
    header size wraps to 3 in the 16-bit [len], the buffer is cut to 3
    bytes, put on rx_q and announced. *)
Theorem process_rx_buf_length_wraps :
  skb_len wrap_skb = SPI_BUF_SIZE calm_board /\
  get_le16 (skb_data wrap_skb) (offsetof_offset calm_board) = Some 4 /\
  get_le16 (skb_data wrap_skb) (offsetof_len calm_board) = Some 65535 /\
  sizeof_header calm_board + 65535 > SPI_BUF_SIZE calm_board /\
  process_rx_buf calm_board (Some wrap_skb) running_world
  = Ok 0 (delivered running_world (mk_skb 5%positive ["004"; "000"; "255"]%byte)).
Proof. repeat split. Qed.

(** ** esp_spi_work *)

Lemma exchange_bytes_length P w p :
  length (exchange_bytes P w p) = Z.to_nat (SPI_BUF_SIZE P).
Proof.
  unfold exchange_bytes. cbv zeta.
  rewrite length_app, length_take, length_drop.
  unfold zeroed. rewrite repeat_length. lia.
Qed.

Lemma exchanges_app t1 t2 : exchanges (t1 ++ t2) = (exchanges t1 + exchanges t2)%nat.
Proof. unfold exchanges. rewrite filter_app, length_app. reflexivity. Qed.

Lemma memset_fresh (f : nat -> byte) c n :
  memset ([] ++ map f (seq 0 (Z.to_nat n))) 0 c n = repeat c (Z.to_nat n).
Proof.
  unfold memset. cbn.
  rewrite drop_ge by (rewrite length_map, length_seq; lia).
  apply app_nil_r.
Qed.

Lemma esp_spi_work_run P w p :
  platform_ok P ->
  ext_ptr P (trace w) (Cesp_alloc_skb (SPI_BUF_SIZE P)) = Some p ->
  esp_spi_work P w = Ok tt (after_activation P w p).
Proof.
  intros HP Ha.
  pose proof (exchange_bytes_length P w p) as Hlen.
  pose proof (offset_in_header P HP). pose proof (len_in_header P HP).
  pose proof (header_fits P HP).
  assert (Hrx : forall w3,
    process_rx_buf P (Some (mk_skb p (exchange_bytes P w p))) w3 =
    match frame_length P (exchange_bytes P w p) with
    | Some len => Ok 0 (delivered w3 (skb_trim (mk_skb p (exchange_bytes P w p)) len))
    | None => Ok (- EINVAL) w3
    end).
  { intros w3. apply process_rx_buf_run; cbn; lia. }
  unfold after_activation, activation_events, activation_rx.
  unfold exchange_status in *.
  remember (frame_length P (exchange_bytes P w p)) as fl.
  unfold exchange_bytes, exchange_of, zeroed, alloc_rx_of in *.
  destruct w as [[ad dev tq rq wq pend] ads n tr].
  unfold esp_spi_work.
  unfold bind at 1.
  unfold skb_dequeue_tx.
  cbn [spi_context tx_q trace] in *.
  destruct tq as [|tx tq];
  unfold bind at 1; unfold esp_alloc_skb, call_ptr, bind at 1;
  cbn [spi_context tx_q trace set_context log] in *; rewrite Ha.
  all: unfold ret at 1; unfold bind at 1; unfold skb_put, ret at 1.
  all: cbn [skb_addr skb_data length].
  all: rewrite memset_fresh.
  all: unfold bind at 1; unfold get_context.
  all: unfold bind at 1; unfold spi_sync_transfer.
  all: cbn [spi_context tx_q trace set_context log esp_spi_dev set_tx_q
            fmap option_fmap option_map head] in *.
  all: destruct (ext_int P _ _ =? 0); cbn [negb].
  all: unfold bind at 1; unfold printk, call_void, ret at 1.
  all: unfold bind at 1; rewrite Hrx; destruct fl as [len|].
  all: try change (- EINVAL =? 0) with false; try change (0 =? 0) with true;
       cbn [negb]; unfold bind, dev_kfree_skb, call_void, ret.
  all: unfold delivered, notify_of, kfree_of, log, set_context, set_rx_q, set_tx_q.
  all: cbn [spi_context adapters wq_queued trace adapter esp_spi_dev tx_q rx_q
            spi_workqueue spi_work_pending skb_addr head tail app].
  all: rewrite <- ?app_assoc; cbn [app]; rewrite ?app_nil_r; try reflexivity.
Qed.

Lemma activation_events_exchanges P w p :
  exchanges (activation_events P w p) = 1%nat.
Proof.
  unfold activation_events.
  rewrite !exchanges_app.
  destruct (exchange_status P w p =? 0);
    destruct (frame_length P (exchange_bytes P w p));
    destruct (head (tx_q (spi_context w))); reflexivity.
Qed.

Lemma zeroed_length P :
  0 <= SPI_BUF_SIZE P -> Z.of_nat (length (zeroed P)) = SPI_BUF_SIZE P.
Proof. intros H. unfold zeroed. rewrite repeat_length. lia. Qed.

(** Out of memory, an activation makes no exchange: it stops at skb_put. *)
Lemma activation_without_exchange : ~ every_activation_exchanges oom_board.
Proof.
  intros H. destruct (H running_world) as (w' & Hrun & _).
  vm_compute in Hrun. discriminate.
Qed.

(** X18: an activation whose receive buffer is allocated takes the
    head of tx_q, if there is one, and nothing else from it; makes one
    transfer of SPI_BUF_SIZE bytes into a buffer of that many zero bytes;
    logs a failed transfer and carries on; gives what was received to
    process_rx_buf, queueing it on success and freeing it otherwise; and
    last frees the transmit buffer it took. *)
Theorem esp_spi_work_one_exchange P w p :
  platform_ok P ->
  ext_ptr P (trace w) (Cesp_alloc_skb (SPI_BUF_SIZE P)) = Some p ->
  exists w',
    esp_spi_work P w = Ok tt w' /\
    tx_q (spi_context w') = tail (tx_q (spi_context w)) /\
    exchanges (trace w') = S (exchanges (trace w)) /\
    Z.of_nat (length (zeroed P)) = SPI_BUF_SIZE P /\
    trace w' = trace w ++ activation_events P w p /\
    rx_q (spi_context w') = rx_q (spi_context w) ++ activation_rx P w p /\
    (forall w3,
       process_rx_buf P (Some (mk_skb p (exchange_bytes P w p))) w3 =
       match frame_length P (exchange_bytes P w p) with
       | Some len =>
           Ok 0 (delivered w3 (skb_trim (mk_skb p (exchange_bytes P w p)) len))
       | None => Ok (- EINVAL) w3
       end) /\
    (forall tx_skb,
       head (tx_q (spi_context w)) = Some tx_skb ->
       last (trace w') = Some (kfree_of tx_skb)).
Proof.
  intros HP Ha. exists (after_activation P w p).
  pose proof (offset_in_header P HP). pose proof (len_in_header P HP).
  pose proof (header_fits P HP).
  split; [apply esp_spi_work_run; assumption|].
  split; [reflexivity|].
  split; [unfold after_activation; cbn [trace];
          rewrite exchanges_app, activation_events_exchanges; lia|].
  split; [apply zeroed_length; lia|].
  split; [reflexivity|].
  split; [reflexivity|].
  split.
  - intros w3. apply process_rx_buf_run; cbn; rewrite exchange_bytes_length; lia.
  - intros tx_skb Htx. unfold after_activation. cbn [trace].
    unfold activation_events. rewrite Htx.
    rewrite !app_assoc. apply last_snoc.
Qed.

Lemma esp_spi_work_one_exchange_witness :
  exists w',
    esp_spi_work calm_board one_to_send = Ok tt w' /\
    tx_q (spi_context w') = [] /\
    exchanges (trace w') = 1%nat /\
    last (trace w') = Some (Ev (Cdev_kfree_skb 3%positive) RVoid).
Proof.
  destruct (esp_spi_work_one_exchange calm_board one_to_send 1%positive
              (board_ok _ _ _ _) eq_refl)
    as (w' & Hrun & Htx & Hex & _ & _ & _ & _ & Hfree).
  exists w'. split; [exact Hrun|]. split; [exact Htx|]. split; [exact Hex|].
  apply (Hfree first_frame). reflexivity.
Defined.

Lemma esp_spi_work_stops P w :
  ext_ptr P (trace w) (Cesp_alloc_skb (SPI_BUF_SIZE P)) = None ->
  esp_spi_work P w = Fault NullDeref (stopped_at_skb_put P w).
Proof.
  intros Ha.
  destruct w as [[ad dev tq rq wq pend] ads n tr].
  unfold esp_spi_work, stopped_at_skb_put.
  unfold bind at 1. unfold skb_dequeue_tx.
  cbn [spi_context tx_q trace] in *.
  destruct tq as [|tx tq];
    unfold bind at 1; unfold esp_alloc_skb, call_ptr, bind at 1;
    cbn [spi_context tx_q trace set_context log] in *; rewrite Ha;
    reflexivity.
Qed.

(** C4: an activation that finds no memory for its receive buffer does
    none of what every activation is to do. With one frame in tx_q and
    esp_alloc_skb returning NULL, esp_spi_work takes the frame off tx_q,
    stops at skb_put on the NULL buffer, has made no transfer and never
    frees the frame it took. *)
Theorem activation_out_of_memory :
  tx_q (spi_context one_to_send) = [first_frame] /\
  exists w',
    esp_spi_work oom_board one_to_send = Fault NullDeref w' /\
    tx_q (spi_context w') = [] /\
    exchanges (trace w') = 0%nat /\
    ~ In (kfree_of first_frame) (trace w').
Proof.
  split; [reflexivity|].
  exists (stopped_at_skb_put oom_board one_to_send).
  split; [apply esp_spi_work_stops; reflexivity|].
  split; [reflexivity|]. split; [reflexivity|].
  cbn. intros [H | []]. discriminate.
Qed.

(** C9: when esp_alloc_skb returns NULL the activation does not complete:
    the NULL goes to skb_put unchecked and is dereferenced there, after the
    head of tx_q has been taken off and before any transfer. *)
Theorem esp_spi_work_alloc_failure P w :
  ext_ptr P (trace w) (Cesp_alloc_skb (SPI_BUF_SIZE P)) = None ->
  esp_spi_work P w = Fault NullDeref (stopped_at_skb_put P w) /\
  exchanges (trace (stopped_at_skb_put P w)) = exchanges (trace w).
Proof.
  intros Ha. split.
  - apply esp_spi_work_stops. exact Ha.
  - unfold stopped_at_skb_put, log. cbn [trace spi_context set_context].
    rewrite exchanges_app.
    change (exchanges [alloc_rx_of P None]) with 0%nat. lia.
Qed.

Lemma esp_spi_work_alloc_failure_witness :
  esp_spi_work oom_board one_to_send
  = Fault NullDeref (stopped_at_skb_put oom_board one_to_send) /\
  exchanges (trace (stopped_at_skb_put oom_board one_to_send)) = 0%nat.
Proof.
  apply (esp_spi_work_alloc_failure oom_board one_to_send). reflexivity.
Defined.

(** ** The interrupt handler and the workqueue *)

Lemma spi_interrupt_handler_run irq dev w :
  spi_interrupt_handler irq dev w = Ok IRQ_HANDLED (after_edge w).
Proof.
  unfold spi_interrupt_handler, after_edge, bind, get_context, queue_work, ret.
  destruct (spi_workqueue (spi_context w)); [|reflexivity].
  destruct (spi_work_pending (spi_context w)); reflexivity.
Qed.

Lemma after_edge_frame w :
  trace (after_edge w) = trace w /\
  adapters (after_edge w) = adapters w /\
  tx_q (spi_context (after_edge w)) = tx_q (spi_context w) /\
  rx_q (spi_context (after_edge w)) = rx_q (spi_context w) /\
  spi_workqueue (spi_context (after_edge w)) = spi_workqueue (spi_context w) /\
  esp_spi_dev (spi_context (after_edge w)) = esp_spi_dev (spi_context w) /\
  adapter (spi_context (after_edge w)) = adapter (spi_context w).
Proof.
  unfold after_edge.
  destruct (spi_workqueue (spi_context w)) eqn:Hq;
    [|repeat split; congruence].
  destruct (spi_work_pending (spi_context w)) eqn:Hp;
    repeat split; cbn; congruence.
Qed.

Lemma after_edge_queued w :
  wq_consistent w -> spi_workqueue (spi_context w) <> None ->
  wq_consistent (after_edge w) /\ wq_queued (after_edge w) = 1%nat.
Proof.
  unfold wq_consistent, after_edge. intros Hc Hq.
  destruct (spi_workqueue (spi_context w)); [|congruence].
  destruct (spi_work_pending (spi_context w)) eqn:Hp; cbn.
  - rewrite Hp. auto.
  - rewrite Hc. auto.
Qed.

Lemma after_edge_consistent w : wq_consistent w -> wq_consistent (after_edge w).
Proof.
  intros Hc. destruct (spi_workqueue (spi_context w)) eqn:Hq.
  - apply after_edge_queued; congruence.
  - unfold after_edge. rewrite Hq. exact Hc.
Qed.

(** An edge that arrives while an activation runs leaves the same world as
    one that arrives after it: the handler and the work item write
    different parts of it. *)
Lemma edge_during_activation P w p :
  after_activation P (after_edge w) p = after_edge (after_activation P w p).
Proof.
  destruct w as [[ad dev tq rq wq pend] ads n tr].
  unfold after_edge. cbn [spi_context spi_workqueue spi_work_pending].
  destruct wq as [q|]; cbn [after_activation spi_context spi_workqueue
                            set_rx_q set_tx_q]; [|reflexivity].
  destruct pend; reflexivity.
Qed.

(** C5: however many edges arrive in a row while the workqueue exists, the
    handler leaves spi_work queued exactly once: not once per edge, and not
    less than what was queued before. The handler calls nothing but
    queue_work: trace, queues and device are as they were. *)
Theorem edges_coalesce n irq dev w :
  wq_consistent w ->
  spi_workqueue (spi_context w) <> None ->
  exists w',
    edges n irq dev w = Ok tt w' /\
    wq_consistent w' /\
    (wq_queued w' <= 1)%nat /\
    (wq_queued w <= wq_queued w')%nat /\
    ((0 < n)%nat -> wq_queued w' = 1%nat) /\
    trace w' = trace w /\
    tx_q (spi_context w') = tx_q (spi_context w) /\
    rx_q (spi_context w') = rx_q (spi_context w) /\
    spi_workqueue (spi_context w') = spi_workqueue (spi_context w).
Proof.
  revert w. induction n as [|n IH]; intros w Hc Hq.
  - exists w. cbn. unfold wq_consistent in Hc.
    repeat split; try lia; try assumption.
    destruct (spi_work_pending (spi_context w)); lia.
  - destruct (after_edge_queued w Hc Hq) as [Hc1 H1].
    destruct (after_edge_frame w) as (Ht & _ & Htx & Hrx & Hwq & _ & _).
    destruct (IH (after_edge w) Hc1) as
      (w' & Hrun & Hc' & Hle & Hge & _ & Ht' & Htx' & Hrx' & Hwq').
    { congruence. }
    exists w'. cbn [edges]. unfold bind at 1.
    rewrite spi_interrupt_handler_run.
    repeat split; try congruence; try lia.
    unfold wq_consistent in Hc.
    destruct (spi_work_pending (spi_context w)); lia.
Qed.

Lemma edges_coalesce_witness :
  exists w',
    edges 5 182 (Some 9%positive) running_world = Ok tt w' /\
    wq_queued w' = 1%nat /\ trace w' = trace running_world.
Proof.
  destruct (edges_coalesce 5 182 (Some 9%positive) running_world)
    as (w' & Hrun & _ & _ & _ & Hone & Ht & _); [reflexivity | discriminate |].
  exists w'. split; [exact Hrun|]. split; [apply Hone; lia | exact Ht].
Defined.

(** ** The worker *)

Lemma bind_Ok_inv {A B} (m : M A) (k : A -> M B) w b w' :
  bind m k w = Ok b w' -> exists a w1, m w = Ok a w1 /\ k a w1 = Ok b w'.
Proof.
  unfold bind. destruct (m w) as [a w1|f w1]; [eauto | discriminate].
Qed.

Lemma bind_Ok {A B} (m : M A) (k : A -> M B) w a w1 :
  m w = Ok a w1 -> bind m k w = k a w1.
Proof. unfold bind. intros ->. reflexivity. Qed.

(** An activation that completes is the one described above. *)
Lemma esp_spi_work_Ok_inv P w w' :
  platform_ok P -> esp_spi_work P w = Ok tt w' ->
  exists p, ext_ptr P (trace w) (Cesp_alloc_skb (SPI_BUF_SIZE P)) = Some p /\
            w' = after_activation P w p.
Proof.
  intros HP Hrun.
  destruct (ext_ptr P (trace w) (Cesp_alloc_skb (SPI_BUF_SIZE P))) as [p|] eqn:Ha.
  - rewrite (esp_spi_work_run P w p HP Ha) in Hrun. exists p. split; congruence.
  - rewrite (esp_spi_work_stops P w Ha) in Hrun. discriminate.
Qed.

Lemma worker_run_consistent P w w' :
  platform_ok P -> wq_consistent w ->
  worker_run P w = Ok tt w' -> wq_consistent w'.
Proof.
  intros HP Hc. unfold worker_run.
  destruct (wq_queued w) as [|n] eqn:Hn.
  - intros [= <-]. exact Hc.
  - intros Hrun. apply (esp_spi_work_Ok_inv P _ _ HP) in Hrun.
    destruct Hrun as (p & _ & ->).
    unfold wq_consistent in *. rewrite Hn in Hc. cbn.
    destruct (spi_work_pending (spi_context w)); lia.
Qed.

Lemma write_packet_queue_state P a buf size w r w' :
  write_packet P a buf size w = Ok r w' ->
  wq_queued w' = wq_queued w /\
  spi_work_pending (spi_context w') = spi_work_pending (spi_context w).
Proof.
  unfold write_packet.
  destruct (_ || _ || _ || _).
  - intros [= _ <-]. split; reflexivity.
  - unfold bind, esp_alloc_skb, call_ptr, bind, ret.
    destruct (ext_ptr P _ _); cbn.
    + destruct buf; cbn; [|discriminate]. intros [= _ <-]. split; reflexivity.
    + intros [= _ <-]. split; reflexivity.
Qed.

Lemma read_packet_queue_state a w r w' :
  read_packet a w = Ok r w' ->
  wq_queued w' = wq_queued w /\
  spi_work_pending (spi_context w') = spi_work_pending (spi_context w).
Proof.
  unfold read_packet.
  destruct (match a with None => true | Some _ => _ end).
  - intros [= _ <-]. split; reflexivity.
  - unfold bind, get_context.
    destruct (is_null (esp_spi_dev (spi_context w))).
    + intros [= _ <-]. split; reflexivity.
    + unfold skb_dequeue_rx. destruct (rx_q (spi_context w));
        intros [= _ <-]; split; reflexivity.
Qed.

(** X7: at most one activation is ever queued: the agreement of pending bit
    and workqueue is kept by every edge, turn of the worker, write_packet
    and read_packet, in whatever order they come. *)
Lemma runtime_steps_consistent P w w' :
  platform_ok P -> wq_consistent w -> runtime_steps P w w' ->
  wq_consistent w' /\ (wq_queued w' <= 1)%nat.
Proof.
  intros HP Hc Hsteps.
  assert (Hc' : wq_consistent w').
  { induction Hsteps as [|w w1 w2 _ IH Hstep]; [exact Hc|].
    specialize (IH Hc).
    destruct Hstep as [irq dev w1 r w2 H | w1 w2 H | a buf size w1 r w2 H
                      | a w1 r w2 H].
    - rewrite spi_interrupt_handler_run in H. injection H as _ <-.
      apply after_edge_consistent. exact IH.
    - eapply worker_run_consistent; eassumption.
    - destruct (write_packet_queue_state _ _ _ _ _ _ _ H) as [Hq Hp].
      unfold wq_consistent in *. rewrite Hq, Hp. exact IH.
    - destruct (read_packet_queue_state _ _ _ _ H) as [Hq Hp].
      unfold wq_consistent in *. rewrite Hq, Hp. exact IH. }
  split; [exact Hc'|]. unfold wq_consistent in Hc'. rewrite Hc'.
  destruct (spi_work_pending (spi_context w')); lia.
Qed.

(** ** spi_exit *)

Lemma spi_exit_halves P w :
  spi_exit P w = (stop_scheduler P ;;; release_resources P) w.
Proof.
  unfold spi_exit, stop_scheduler, release_resources, bind, get_context.
  reflexivity.
Qed.

Lemma release_resources_run P w a :
  adapter (spi_context w) = Some a ->
  release_resources P w = Ok tt (released P w a).
Proof.
  intros Ha. destruct w as [[ad dev tq rq wq pend] ads n tr].
  cbn in Ha. subst ad.
  unfold release_resources, released, release_events, bind, call_void,
    get_context, modify_context, log, set_context, ret.
  cbn [spi_context adapters wq_queued trace adapter esp_spi_dev].
  rewrite <- !app_assoc. cbn [app].
  destruct (is_null (adapter_hcidev P _ a)); cbn [negb];
    destruct dev; cbn [spi_context adapters wq_queued trace adapter esp_spi_dev];
    rewrite <- ?app_assoc; reflexivity.
Qed.

Lemma release_resources_null P w :
  adapter (spi_context w) = None ->
  release_resources P w
  = Fault NullDeref (log (Ev (Cesp_remove_card None) RVoid)
                         (log (Ev Cesp_serial_cleanup RVoid) w)).
Proof.
  intros Ha. destruct w as [[ad dev tq rq wq pend] ads n tr].
  cbn in Ha. subst ad. reflexivity.
Qed.



Lemma stop_scheduler_idle P w :
  wq_queued w = 0%nat -> stop_scheduler P w = Ok tt (stopped_idle w).
Proof.
  intros Hq. unfold stop_scheduler, stopped_idle, bind, get_context.
  destruct (spi_workqueue (spi_context w)); [|reflexivity].
  unfold destroy_workqueue, bind, call_void. cbn. rewrite Hq. reflexivity.
Qed.


Lemma spi_exit_clears P w w' :
  spi_exit P w = Ok tt w' -> spi_context w' = zero_context.
Proof.
  rewrite spi_exit_halves. intros H.
  apply bind_Ok_inv in H. destruct H as ([] & w1 & _ & H).
  destruct (adapter (spi_context w1)) as [a|] eqn:Ha.
  - rewrite (release_resources_run P w1 a Ha) in H. injection H as <-.
    reflexivity.
  - rewrite (release_resources_null P w1 Ha) in H. discriminate.
Qed.

(** C6: a second spi_exit is not a no-op. The first one has zeroed the
    context, so the second finds spi_context.adapter NULL, hands it to
    esp_remove_card and then reads adapter->hcidev through it. *)
Theorem spi_exit_twice_faults P w w1 :
  spi_exit P w = Ok tt w1 ->
  spi_exit P w1
  = Fault NullDeref (log (Ev (Cesp_remove_card None) RVoid)
                         (log (Ev Cesp_serial_cleanup RVoid) w1)).
Proof.
  intros H. apply spi_exit_clears in H.
  rewrite spi_exit_halves.
  assert (Hstop : stop_scheduler P w1 = Ok tt w1).
  { unfold stop_scheduler, bind, get_context. rewrite H. reflexivity. }
  rewrite (bind_Ok _ _ _ _ _ Hstop).
  apply release_resources_null. rewrite H. reflexivity.
Qed.

Lemma spi_exit_twice_faults_witness :
  exists w1 w2,
    spi_exit calm_board running_world = Ok tt w1 /\
    spi_exit calm_board w1 = Fault NullDeref w2.
Proof.
  do 2 eexists. split; [reflexivity|].
  apply (spi_exit_twice_faults calm_board running_world). reflexivity.
Defined.

Lemma stop_scheduler_no_work P w :
  wq_queued w = 0%nat \/ spi_workqueue (spi_context w) = None ->
  stop_scheduler P w = Ok tt (stopped_idle w).
Proof.
  intros [Hq | Hn].
  - apply stop_scheduler_idle. exact Hq.
  - unfold stop_scheduler, stopped_idle, bind, get_context. rewrite Hn.
    reflexivity.
Qed.

Lemma stopped_idle_adapter w :
  adapter (spi_context (stopped_idle w)) = adapter (spi_context w).
Proof.
  unfold stopped_idle. destruct (spi_workqueue (spi_context w)); reflexivity.
Qed.

(** spi_exit with no activation queued *)
Lemma spi_exit_idle P w a :
  adapter (spi_context w) = Some a ->
  wq_queued w = 0%nat \/ spi_workqueue (spi_context w) = None ->
  spi_exit P w = Ok tt (released P (stopped_idle w) a).
Proof.
  intros Ha Hidle. rewrite spi_exit_halves.
  rewrite (bind_Ok _ _ _ _ _ (stop_scheduler_no_work P w Hidle)).
  apply release_resources_run. rewrite stopped_idle_adapter. exact Ha.
Qed.


Lemma release_events_releasing P w a :
  Forall (fun e => releasing e = true) (release_events P w a).
Proof.
  unfold release_events.
  destruct (is_null (adapter_hcidev P _ a));
    destruct (esp_spi_dev (spi_context w)); cbn;
    repeat constructor.
Qed.




Ltac tidy :=
  unfold log, set_context;
  cbn [spi_context adapters wq_queued trace
       set_spi_workqueue set_spi_work_pending set_tx_q set_rx_q
       set_esp_spi_dev adapter esp_spi_dev tx_q rx_q spi_workqueue
       spi_work_pending].

Ltac run_step :=
  erewrite bind_Ok by reflexivity; cbv beta; tidy.

Ltac split_ptr P :=
  match goal with
  | |- context [ext_ptr P ?h ?c] => destruct (ext_ptr P h c) eqn:?
  end; cbn [is_null].

Ltac split_status P :=
  match goal with
  | |- context [negb (ext_int P ?h ?c =? 0)] =>
      let E := fresh "E" in
      destruct (Z.eqb_spec (ext_int P h c) 0) as [E|E];
      [rewrite E; clear E|]
  end; cbn [negb].


Lemma esp_init_interface_layer_run P a w :
  esp_init_interface_layer P (Some a) w = spi_init P (bound_to a w).
Proof. reflexivity. Qed.

(** * Further properties of the transport *)

(** ** read_packet *)

Lemma read_guard_spec w a :
  match a with
  | None => true
  | Some p => is_null (if_context (adapter_at w p))
  end = true <-> read_args_invalid w a.
Proof.
  unfold read_args_invalid. destruct a as [p|].
  - destruct (if_context (adapter_at w p)) eqn:Hc; cbn.
    + split; [discriminate|]. intros [H | (q & [= <-] & H)]; congruence.
    + split; [|reflexivity]. intros _. right. exists p. auto.
  - split; [auto | reflexivity].
Qed.

(** X1: read_packet never faults. It hands out the oldest buffer of rx_q
    and removes exactly that one, and it does so whenever its adapter and
    the context behind it are there, the device is bound and rx_q is not
    empty; in every other case it returns NULL and leaves rx_q alone. It
    never touches tx_q. *)
Theorem read_packet_oldest_first a w :
  exists r w',
    read_packet a w = Ok r w' /\
    rx_q (spi_context w)
    = match r with Some skb => [skb] | None => [] end ++ rx_q (spi_context w') /\
    tx_q (spi_context w') = tx_q (spi_context w) /\
    (r <> None <->
     ~ read_args_invalid w a /\ esp_spi_dev (spi_context w) <> None /\
     rx_q (spi_context w) <> []).
Proof.
  unfold read_packet.
  destruct (match a with
            | None => true
            | Some p => is_null (if_context (adapter_at w p))
            end) eqn:Hg.
  - do 2 eexists. split; [reflexivity|]. repeat (split; [reflexivity|]).
    split; [congruence|]. intros (Hv & _). exfalso. apply Hv.
    apply read_guard_spec. exact Hg.
  - assert (Hv : ~ read_args_invalid w a).
    { rewrite <- read_guard_spec, Hg. discriminate. }
    unfold bind, get_context.
    destruct (esp_spi_dev (spi_context w)) as [dev|] eqn:Hdev; cbn [is_null].
    + unfold skb_dequeue_rx.
      destruct (rx_q (spi_context w)) as [|skb q] eqn:Hq.
      * do 2 eexists. split; [reflexivity|]. rewrite Hq.
        repeat (split; [reflexivity|]). split; [congruence|]. tauto.
      * do 2 eexists. split; [reflexivity|].
        repeat (split; [reflexivity|]).
        split; [|discriminate]. intros _. repeat split; congruence.
    + do 2 eexists. split; [reflexivity|]. repeat (split; [reflexivity|]).
      split; [congruence|]. tauto.
Qed.

(** ** write_packet, again *)

(** X2: whenever write_packet returns, it returns 0, -EINVAL or -ENOMEM,
    and unless that is 0 the context is as it was: nothing has been queued.
    It never touches rx_q. Only calls that return are spoken of; whether
    a call returns is not. *)
Theorem write_packet_outcomes P a buf size w r w' :
  write_packet P a buf size w = Ok r w' ->
  (r = 0 \/ r = - EINVAL \/ r = - ENOMEM) /\
  (r <> 0 -> spi_context w' = spi_context w) /\
  rx_q (spi_context w') = rx_q (spi_context w).
Proof.
  unfold write_packet.
  destruct (_ || _ || _ || _).
  - intros [= <- <-]. split; [auto|]. split; reflexivity.
  - unfold bind, esp_alloc_skb, call_ptr, bind, ret.
    destruct (ext_ptr P _ _); cbn.
    + destruct buf; cbn; [|discriminate]. intros [= <- <-].
      split; [auto|]. split; [congruence | reflexivity].
    + intros [= <- <-]. split; [auto|]. split; reflexivity.
Qed.

Lemma write_packet_outcomes_witness :
  exists w',
    write_packet oom_board (Some adapter7) (Some (payload_then "255")) 3
                 one_to_send = Ok (- ENOMEM) w' /\
    spi_context w' = spi_context one_to_send.
Proof.
  eexists. split; [reflexivity|].
  apply (write_packet_outcomes oom_board (Some adapter7)
           (Some (payload_then "255")) 3 one_to_send (- ENOMEM) _ eq_refl).
  discriminate.
Defined.

(** X3: the frame an accepted write_packet queues is last in tx_q and
    begins with the [size] bytes of the caller's payload, unchanged. *)
Theorem write_packet_keeps_payload P w a buf size w' :
  platform_ok P -> 0 <= size ->
  write_packet P a buf size w = Ok 0 w' ->
  exists src skb,
    buf = Some src /\
    last (tx_q (spi_context w')) = Some skb /\
    take (Z.to_nat size) (skb_data skb) = map src (seq 0 (Z.to_nat size)).
Proof.
  intros HP Hs Hrun.
  destruct (write_packet_accepted_inv P w a buf size w' HP Hs Hrun)
    as (src & p & -> & _ & ->).
  exists src, (mk_skb p (map src (seq 0 (Z.to_nat (padded size))))).
  split; [reflexivity|]. split.
  - unfold accepted_world. cbn. apply last_snoc.
  - cbn. pose proof (padded_gt size) as Hgt.
    replace (Z.to_nat (padded size))
      with (Z.to_nat size + (Z.to_nat (padded size) - Z.to_nat size))%nat by lia.
    rewrite seq_app, map_app, take_app_length'; [reflexivity|].
    rewrite length_map, length_seq. reflexivity.
Qed.

Lemma write_packet_keeps_payload_witness :
  exists w' skb,
    write_packet calm_board (Some adapter7) (Some (payload_then "255")) 3
                 running_world = Ok 0 w' /\
    last (tx_q (spi_context w')) = Some skb /\
    take 3 (skb_data skb) = ["001"; "001"; "001"]%byte.
Proof.
  destruct (write_packet_keeps_payload calm_board running_world
              (Some adapter7) (Some (payload_then "255")) 3 _
              (board_ok _ _ _ _) ltac:(lia) eq_refl)
    as (src & skb & Hsrc & Hlast & Htake).
  injection Hsrc as <-.
  eexists. exists skb. split; [reflexivity|]. split; [exact Hlast|].
  exact Htake.
Defined.

(** ** process_rx_buf, again *)

(** An accepted buffer is one whose bytes pass the checks, and it is queued
    trimmed. *)
Lemma process_rx_buf_Ok_inv P skb w r w' :
  process_rx_buf P (Some skb) w = Ok r w' ->
  (exists l, frame_length P (skb_data skb) = Some l /\
             r = 0 /\ w' = delivered w (skb_trim skb l))
  \/ (frame_length P (skb_data skb) = None /\ r = - EINVAL /\ w' = w).
Proof.
  unfold process_rx_buf, frame_length, read_le16, bind.
  destruct (get_le16 (skb_data skb) (offsetof_offset P)) as [offset|];
    [|discriminate]. cbn.
  destruct (offset =? sizeof_header P); cbn.
  2: { destruct (get_le16 (skb_data skb) (offsetof_len P));
       intros [= <- <-]; right; auto. }
  destruct (get_le16 (skb_data skb) (offsetof_len P)) as [len|];
    [|discriminate]. cbn.
  destruct (len =? 0); [intros [= <- <-]; right; auto|].
  destruct (u16 (len + sizeof_header P) >? SPI_BUF_SIZE P).
  - intros [= <- <-]. right. auto.
  - intros [= <- <-]. left. eexists. repeat split.
Qed.

(** X4: process_rx_buf returns 0 or -EINVAL, and a buffer it turns down,
    NULL included, leaves no trace: nothing is queued and nobody is told. *)
Theorem process_rx_buf_rejects_cleanly P skb w r w' :
  process_rx_buf P skb w = Ok r w' ->
  (r = 0 \/ r = - EINVAL) /\ (r <> 0 -> w' = w).
Proof.
  destruct skb as [skb|].
  - intros H. apply process_rx_buf_Ok_inv in H.
    destruct H as [(l & _ & -> & _) | (_ & -> & ->)].
    + split; [auto | congruence].
    + split; [auto | reflexivity].
  - intros [= <- <-]. split; [auto | reflexivity].
Qed.

Lemma process_rx_buf_rejects_cleanly_witness :
  process_rx_buf calm_board (Some first_frame) one_to_send
  = Ok (- EINVAL) one_to_send.
Proof.
  destruct (process_rx_buf_rejects_cleanly calm_board (Some first_frame)
              one_to_send (- EINVAL) one_to_send eq_refl) as [_ H].
  reflexivity.
Defined.

Lemma skb_trim_facts skb l :
  0 <= l ->
  skb_addr (skb_trim skb l) = skb_addr skb /\
  skb_len (skb_trim skb l) <= Z.max l 0 /\
  skb_len (skb_trim skb l) = Z.min l (skb_len skb) /\
  skb_data (skb_trim skb l) = take (Z.to_nat l) (skb_data skb).
Proof.
  intros Hl. unfold skb_trim, skb_len.
  destruct (Z.ltb_spec l (Z.of_nat (length (skb_data skb)))) as [Hlt|Hge]; cbn.
  - rewrite length_take. repeat split; lia.
  - repeat split; try lia. symmetry. apply take_ge. lia.
Qed.

(** X5: a buffer process_rx_buf accepts has the header size in its offset
    field and a nonzero length field; it goes to the tail of rx_q under the
    address it came with, holding a prefix of the bytes received that is at
    most SPI_BUF_SIZE long, and the adapter is told once. *)
Theorem process_rx_buf_accepts P skb w w' :
  process_rx_buf P (Some skb) w = Ok 0 w' ->
  get_le16 (skb_data skb) (offsetof_offset P) = Some (sizeof_header P) /\
  (exists len, get_le16 (skb_data skb) (offsetof_len P) = Some len /\ len <> 0) /\
  exists skb',
    rx_q (spi_context w') = rx_q (spi_context w) ++ [skb'] /\
    trace w' = trace w ++ [notify_of w] /\
    skb_addr skb' = skb_addr skb /\
    skb_len skb' <= SPI_BUF_SIZE P /\
    exists n, skb_data skb' = take n (skb_data skb).
Proof.
  intros H. apply process_rx_buf_Ok_inv in H.
  destruct H as [(l & Hl & _ & ->) | (_ & H0 & _)]; [|discriminate].
  assert (Hfields : exists offset len,
            get_le16 (skb_data skb) (offsetof_offset P) = Some offset /\
            get_le16 (skb_data skb) (offsetof_len P) = Some len).
  { unfold frame_length in Hl.
    destruct (get_le16 (skb_data skb) (offsetof_offset P)); [|discriminate].
    destruct (get_le16 (skb_data skb) (offsetof_len P)); [|discriminate].
    eauto. }
  destruct Hfields as (offset & len & Hoff & Hlen).
  destruct (proj1 (frame_length_Some P _ offset len l Hoff Hlen) Hl)
    as (-> & Hnz & Hmod & Hle).
  assert (H0 : 0 <= l) by (subst l; apply Z.mod_pos_bound; lia).
  destruct (skb_trim_facts skb l H0) as (Ha & Hb & _ & Hd).
  split; [exact Hoff|]. split; [eauto|].
  exists (skb_trim skb l).
  repeat (split; [reflexivity|]).
  split; [exact Ha|]. split; [lia|]. eauto.
Qed.

Lemma process_rx_buf_accepts_witness :
  exists w' skb',
    process_rx_buf calm_board (Some five_byte_frame) running_world = Ok 0 w' /\
    rx_q (spi_context w') = [skb'] /\ skb_len skb' <= 1600.
Proof.
  assert (H : exists w',
            process_rx_buf calm_board (Some five_byte_frame) running_world
            = Ok 0 w') by (eexists; vm_compute; reflexivity).
  destruct H as [w' Hw'].
  destruct (process_rx_buf_accepts calm_board five_byte_frame running_world
              w' Hw') as (_ & _ & skb' & Hq & _ & _ & Hlen & _).
  exists w', skb'. split; [exact Hw'|]. split; [exact Hq | exact Hlen].
Defined.

(** X6: when the length field plus the header size stays below 2^16 and the
    buffer holds that many bytes, the accepted buffer is cut to exactly
    header size plus length bytes, the first ones received. *)
Theorem process_rx_buf_trims_to_frame P skb w w' len :
  0 <= sizeof_header P ->
  get_le16 (skb_data skb) (offsetof_len P) = Some len ->
  len + sizeof_header P < 2 ^ 16 ->
  sizeof_header P + len <= skb_len skb ->
  process_rx_buf P (Some skb) w = Ok 0 w' ->
  exists skb',
    last (rx_q (spi_context w')) = Some skb' /\
    skb_len skb' = sizeof_header P + len /\
    skb_data skb' = take (Z.to_nat (sizeof_header P + len)) (skb_data skb).
Proof.
  intros Hh Hlen Hw Hfit H. apply process_rx_buf_Ok_inv in H.
  destruct H as [(l & Hl & _ & ->) | (_ & H0 & _)]; [|discriminate].
  pose proof (get_le16_range _ _ _ Hlen) as Hr.
  assert (Hoff : exists offset,
            get_le16 (skb_data skb) (offsetof_offset P) = Some offset).
  { unfold frame_length in Hl.
    destruct (get_le16 (skb_data skb) (offsetof_offset P)); [eauto|discriminate]. }
  destruct Hoff as (offset & Hoff).
  destruct (proj1 (frame_length_Some P _ offset len l Hoff Hlen) Hl)
    as (_ & _ & Hmod & _).
  rewrite Z.mod_small in Hmod by lia. subst l.
  replace (len + sizeof_header P) with (sizeof_header P + len) by lia.
  destruct (skb_trim_facts skb (sizeof_header P + len)) as (_ & _ & Hb & Hd);
    [lia|].
  exists (skb_trim skb (sizeof_header P + len)).
  split; [unfold delivered; cbn; apply last_snoc|].
  split; [lia | exact Hd].
Qed.

Lemma process_rx_buf_trims_to_frame_witness :
  exists w' skb',
    process_rx_buf calm_board (Some five_byte_frame) running_world = Ok 0 w' /\
    last (rx_q (spi_context w')) = Some skb' /\
    skb_data skb'
    = ["004"; "000"; "005"; "000"; "170"; "171"; "172"; "173"; "174"]%byte.
Proof.
  assert (H : exists w',
            process_rx_buf calm_board (Some five_byte_frame) running_world
            = Ok 0 w') by (eexists; vm_compute; reflexivity).
  destruct H as [w' Hw'].
  destruct (process_rx_buf_trims_to_frame calm_board five_byte_frame
              running_world w' 5 ltac:(cbn; lia) eq_refl ltac:(cbn; lia)
              ltac:(vm_compute; discriminate) Hw')
    as (skb' & Hlast & _ & Hdata).
  exists w', skb'. split; [exact Hw'|]. split; [exact Hlast | exact Hdata].
Defined.

(** ** Edges, the worker and spi_exit together *)

Lemma runtime_steps_consistent_witness :
  wq_consistent (after_edge running_world) /\
  (wq_queued (after_edge running_world) <= 1)%nat.
Proof.
  apply (runtime_steps_consistent calm_board running_world).
  - apply board_ok.
  - reflexivity.
  - eapply steps_more; [apply steps_none|].
    apply (step_edge calm_board 182 None running_world IRQ_HANDLED).
    apply spi_interrupt_handler_run.
Defined.

Lemma after_edge_idem w : after_edge (after_edge w) = after_edge w.
Proof.
  unfold after_edge.
  destruct (spi_workqueue (spi_context w)) eqn:Hq; [|rewrite Hq; reflexivity].
  destruct (spi_work_pending (spi_context w)) eqn:Hp.
  - rewrite Hq, Hp. reflexivity.
  - cbn. rewrite Hq. reflexivity.
Qed.

Lemma edges_run n irq dev w :
  edges n irq dev w = Ok tt (match n with O => w | S _ => after_edge w end).
Proof.
  revert w. induction n as [|n IH]; intros w; [reflexivity|].
  cbn [edges]. unfold bind at 1. rewrite spi_interrupt_handler_run, IH.
  destruct n; [reflexivity | rewrite after_edge_idem; reflexivity].
Qed.



(** X10: once spi_exit has completed, edges are ignored: the handler finds
    no workqueue, queues nothing and leaves the world as it is, however
    often it is called. *)
Theorem edges_after_exit_ignored P w w1 n irq dev :
  spi_exit P w = Ok tt w1 ->
  edges n irq dev w1 = Ok tt w1 /\ spi_work_pending (spi_context w1) = false.
Proof.
  intros H. apply spi_exit_clears in H.
  rewrite edges_run. unfold after_edge. rewrite H. cbn.
  destruct n; auto.
Qed.

Lemma edges_after_exit_ignored_witness :
  exists w1,
    spi_exit calm_board left_over = Ok tt w1 /\
    edges 3 182 None w1 = Ok tt w1.
Proof.
  eexists. split; [reflexivity|].
  apply (edges_after_exit_ignored calm_board left_over). reflexivity.
Defined.

(** ** A successful initialisation *)

Lemma on_success_fail_with Q P msg err W :
  err <> 0 -> on_success Q (fail_with P msg err W).
Proof.
  intros He. unfold fail_with, printk, bind, call_void.
  destruct (spi_exit P _); cbn; [|exact I]. intros H. contradiction.
Qed.

Lemma on_success_exit_first Q P err W :
  err <> 0 -> on_success Q ((spi_exit P ;;; ret err) W).
Proof.
  intros He. unfold bind.
  destruct (spi_exit P _); cbn; [|exact I]. intros H. contradiction.
Qed.

Lemma on_success_exit_then_note Q P err msg W :
  err <> 0 -> on_success Q ((spi_exit P ;;; printk msg ;;; ret err) W).
Proof.
  intros He. unfold bind.
  destruct (spi_exit P _); cbn; [|exact I]. intros H. contradiction.
Qed.

Ltac in_trace :=
  repeat first [ apply in_or_app; right; left; reflexivity
               | apply in_or_app; left ].

Ltac show_initialised :=
  cbn [on_success]; intros _; split;
  [ reflexivity
  | assumption
  | eexists; split; [reflexivity | cbn [trace]; in_trace]
  | do 2 eexists; split; [reflexivity|];
    split; cbn [trace]; in_trace
  | cbn [trace]; in_trace
  | reflexivity
  | reflexivity
  | split; reflexivity ].

Ltac finish_init P :=
  run_step; split_status P;
  [| apply on_success_exit_then_note; assumption];
  run_step; split_status P;
  [| apply on_success_exit_then_note; assumption];
  run_step;
  show_initialised.

Lemma spi_init_on_success P w a :
  adapter (spi_context w) = Some a ->
  adapter_at w a = mk_adapter (Some addr_spi_context) (Some addr_if_ops) ->
  on_success (initialised P a) (spi_init P w).
Proof.
  intros Ha Hb. unfold spi_init.
  destruct w as [[ad dev tq rq wq pend] ads n tr]. cbn in Ha. subst ad.
  unfold adapter_at in Hb. cbn [adapters] in Hb.
  run_step. split_ptr P.
  2: { run_step. apply on_success_exit_first. unfold EFAULT. lia. }
  do 4 run_step.
  run_step. split_ptr P.
  2: { apply on_success_fail_with. unfold ENODEV. lia. }
  run_step. split_ptr P.
  2: { run_step. apply on_success_fail_with. unfold ENODEV. lia. }
  run_step.
  run_step. split_status P.
  2: { apply on_success_fail_with. assumption. }
  run_step.
  run_step. split_status P.
  2: { apply on_success_fail_with. assumption. }
  run_step. split_status P.
  2: { apply on_success_fail_with. assumption. }
  run_step. split_status P.
  2: { apply on_success_fail_with. assumption. }
  run_step. run_step.
  destruct (CONFIG_SUPPORT_ESP_SERIAL P).
  - run_step. split_status P.
    2: { apply on_success_exit_then_note. assumption. }
    finish_init P.
  - run_step. cbn [negb Z.eqb].
    finish_init P.
Qed.

Lemma bound_to_adapter a w :
  adapter_at (bound_to a w) a
  = mk_adapter (Some addr_spi_context) (Some addr_if_ops).
Proof. unfold adapter_at, bound_to. cbn. rewrite lookup_insert_eq. reflexivity. Qed.

Lemma esp_init_Ok_initialised P a w w' :
  esp_init_interface_layer P (Some a) w = Ok 0 w' ->
  initialised P a w'.
Proof.
  rewrite esp_init_interface_layer_run. intros Hrun.
  pose proof (spi_init_on_success P (bound_to a w) a eq_refl
                (bound_to_adapter a w)) as H.
  rewrite Hrun in H. apply H. reflexivity.
Qed.

(** X11: when esp_init_interface_layer returns 0 the transport is ready:
    the context points back at the adapter and the adapter at the context
    and its operations, the workqueue and the device in the context are
    the ones create_workqueue and spi_new_device returned, the handshake
    pin and the interrupt have been requested with success, both queues
    are empty and no work is pending. *)
Theorem esp_init_interface_layer_ready P a w w' :
  esp_init_interface_layer P (Some a) w = Ok 0 w' ->
  initialised P a w'.
Proof. apply esp_init_Ok_initialised. Qed.

Lemma esp_init_interface_layer_ready_witness :
  exists w',
    esp_init_interface_layer calm_board (Some adapter7) fresh_world = Ok 0 w' /\
    initialised calm_board adapter7 w'.
Proof.
  assert (H : exists w',
            esp_init_interface_layer calm_board (Some adapter7) fresh_world
            = Ok 0 w') by (eexists; vm_compute; reflexivity).
  destruct H as [w' Hw']. exists w'. split; [exact Hw'|].
  apply (esp_init_interface_layer_ready calm_board adapter7 fresh_world).
  exact Hw'.
Defined.


(** ** A failed initialisation *)
















(** ** spi_exit after a successful initialisation *)

Lemma release_events_no_free_irq l :
  Forall (fun e => releasing e = true) l ->
  Forall (fun e => calls_free_irq e = false) l.
Proof.
  intros Hl. eapply Forall_impl; [exact Hl|].
  intros e He. unfold releasing in He.
  unfold calls_free_irq. destruct (ev_call e); try reflexivity; discriminate.
Qed.

(** X12: spi_exit after a successful initialisation completes. It destroys
    the workqueue that was created, first of all, then cleans up the
    serial interface, removes the card, frees the handshake pin and
    unregisters the device that was added; it makes only such calls, no
    transfer among them, and leaves the context zeroed. free_irq is not
    among its calls: the interrupt requested at initialisation stays
    registered. *)
Theorem spi_exit_after_init P a w w' :
  esp_init_interface_layer P (Some a) w = Ok 0 w' ->
  exists wq dev w'' tl,
    spi_workqueue (spi_context w') = Some wq /\
    esp_spi_dev (spi_context w') = Some dev /\
    In (Ev (Crequest_irq (SPI_IRQ P) (Some dev)) (RInt 0)) (trace w') /\
    spi_exit P w' = Ok tt w'' /\
    spi_context w'' = zero_context /\
    trace w'' = trace w' ++ Ev (Cdestroy_workqueue wq) RVoid :: tl /\
    In (Ev Cesp_serial_cleanup RVoid) tl /\
    In (Ev (Cesp_remove_card (Some a)) RVoid) tl /\
    In (Ev (Cgpio_free (HANDSHAKE_PIN P)) RVoid) tl /\
    In (Ev (Cspi_unregister_device dev) RVoid) tl /\
    Forall (fun e => releasing e = true) tl /\
    Forall (fun e => calls_free_irq e = false) tl /\
    exchanges tl = 0%nat.
Proof.
  intros Hrun. apply esp_init_Ok_initialised in Hrun.
  destruct Hrun as [Ha _ (wq & Hwq & _) (master & dev & Hdev & _ & Hirq)
                      _ _ _ [_ Hq]].
  pose proof (spi_exit_idle P w' a Ha (or_introl Hq)) as Hexit.
  assert (Hstop : stopped_idle w' = log (Ev (Cdestroy_workqueue wq) RVoid) w').
  { unfold stopped_idle. rewrite Hwq. reflexivity. }
  rewrite Hstop in Hexit.
  set (w0 := log (Ev (Cdestroy_workqueue wq) RVoid) w') in *.
  pose proof (release_events_releasing P w0 a) as Hrel.
  exists wq, dev, (released P w0 a), (release_events P w0 a).
  repeat (split; [first [assumption | reflexivity]|]).
  split. { unfold released, w0, log. cbn [trace]. rewrite <- app_assoc.
           reflexivity. }
  assert (Hin : In (Ev Cesp_serial_cleanup RVoid) (release_events P w0 a) /\
                In (Ev (Cesp_remove_card (Some a)) RVoid) (release_events P w0 a) /\
                In (Ev (Cgpio_free (HANDSHAKE_PIN P)) RVoid) (release_events P w0 a) /\
                In (Ev (Cspi_unregister_device dev) RVoid) (release_events P w0 a) /\
                exchanges (release_events P w0 a) = 0%nat).
  { unfold release_events, w0, log.
    cbn [spi_context esp_spi_dev trace]. rewrite Hdev.
    destruct (is_null (adapter_hcidev P _ a)); cbn; repeat split; auto 10. }
  destruct Hin as (H1 & H2 & H3 & H4 & H5).
  repeat (split; [assumption|]).
  split; [apply release_events_no_free_irq; exact Hrel | exact H5].
Qed.

Lemma spi_exit_after_init_witness :
  exists w' w'',
    esp_init_interface_layer calm_board (Some adapter7) fresh_world = Ok 0 w' /\
    spi_exit calm_board w' = Ok tt w'' /\
    spi_context w'' = zero_context.
Proof.
  assert (H : exists w',
            esp_init_interface_layer calm_board (Some adapter7) fresh_world
            = Ok 0 w') by (eexists; vm_compute; reflexivity).
  destruct H as [w' Hw'].
  destruct (spi_exit_after_init calm_board adapter7 fresh_world w' Hw')
    as (wq & dev & w'' & tl & _ & _ & _ & Hexit & Hz & _).
  exists w', w''. auto.
Defined.

(** ** From write_packet to the wire and back *)










(** ** The queues and the edges of spi_exit *)

Lemma read_packet_oldest_first_aux a w :
  exists r w',
    read_packet a w = Ok r w' /\
    rx_q (spi_context w)
    = match r with Some skb => [skb] | None => [] end ++ rx_q (spi_context w') /\
    tx_q (spi_context w') = tx_q (spi_context w).
Proof.
  unfold read_packet.
  destruct (match a with None => true | Some _ => _ end).
  - do 2 eexists. repeat split.
  - unfold bind, get_context.
    destruct (is_null (esp_spi_dev (spi_context w))).
    + do 2 eexists. repeat split.
    + unfold skb_dequeue_rx.
      destruct (rx_q (spi_context w)) as [|skb q] eqn:Hq.
      * do 2 eexists. split; [reflexivity|]. rewrite Hq. split; reflexivity.
      * do 2 eexists. split; [reflexivity|]. split; reflexivity.
Qed.

(** X15: every step of the running transport treats each queue as a FIFO:
    tx_q and rx_q only ever lose their head or gain at their tail, so no
    buffer is reordered, and none disappears from the middle. *)
Theorem queues_are_fifo P w w' :
  platform_ok P -> runtime_step P w w' ->
  fifo_move (tx_q (spi_context w)) (tx_q (spi_context w')) /\
  fifo_move (rx_q (spi_context w)) (rx_q (spi_context w')).
Proof.
  intros HP Hstep.
  assert (Hsame : forall q : list sk_buff, fifo_move q q).
  { intros q. left. exists []. symmetry. apply app_nil_r. }
  destruct Hstep as [irq dev w r w' H | w w' H | a buf size w r w' H
                    | a w r w' H].
  - rewrite spi_interrupt_handler_run in H. injection H as _ <-.
    destruct (after_edge_frame w) as (_ & _ & -> & -> & _). auto.
  - unfold worker_run in H. destruct (wq_queued w) as [|n].
    + injection H as <-. auto.
    + apply (esp_spi_work_Ok_inv P _ _ HP) in H. destruct H as (p & _ & ->).
      cbn. split.
      * destruct (tx_q (spi_context w)) as [|skb q]; [apply Hsame|].
        right. exists skb. reflexivity.
      * left. eexists. reflexivity.
  - unfold write_packet in H.
    destruct (_ || _ || _ || _).
    + injection H as _ <-. cbn. auto.
    + unfold bind, esp_alloc_skb, call_ptr, bind, ret in H.
      destruct (ext_ptr P _ _); cbn in H.
      * destruct buf; cbn in H; [|discriminate]. injection H as _ <-. cbn.
        split; [left; eexists; reflexivity | apply Hsame].
      * injection H as _ <-. cbn. auto.
  - destruct (read_packet_oldest_first_aux a w) as (r0 & w0 & Hrun & Hrx & Htx).
    rewrite Hrun in H. injection H as <- <-. rewrite Htx. split; [apply Hsame|].
    destruct r0 as [skb|]; cbn in Hrx.
    + right. exists skb. exact Hrx.
    + rewrite Hrx. apply Hsame.
Qed.

Lemma queues_are_fifo_witness :
  exists w',
    worker_run calm_board (after_edge one_to_send) = Ok tt w' /\
    fifo_move (tx_q (spi_context (after_edge one_to_send)))
              (tx_q (spi_context w')).
Proof.
  assert (H : exists w',
            worker_run calm_board (after_edge one_to_send) = Ok tt w')
    by (eexists; vm_compute; reflexivity).
  destruct H as [w' Hw']. exists w'. split; [exact Hw'|].
  apply (queues_are_fifo calm_board (after_edge one_to_send) w'
           (board_ok _ _ _ _) (step_worker _ _ _ Hw')).
Defined.

(** X16: with nothing queued on the workqueue, spi_exit completes exactly
    when spi_context.adapter is set; called on a context that was never
    initialised, or was zeroed, it dereferences the NULL adapter. *)
Theorem spi_exit_needs_adapter P w :
  wq_queued w = 0%nat \/ spi_workqueue (spi_context w) = None ->
  (exists w', spi_exit P w = Ok tt w') <-> adapter (spi_context w) <> None.
Proof.
  intros Hidle. split.
  - intros [w' Hrun] Hnone. rewrite spi_exit_halves in Hrun.
    rewrite (bind_Ok _ _ _ _ _ (stop_scheduler_no_work P w Hidle)) in Hrun.
    rewrite release_resources_null in Hrun; [discriminate|].
    rewrite stopped_idle_adapter. exact Hnone.
  - intros Ha. destruct (adapter (spi_context w)) as [a|] eqn:Hadapter;
      [|congruence].
    eexists. apply (spi_exit_idle P w a Hadapter Hidle).
Qed.

Lemma spi_exit_needs_adapter_witness :
  (exists w', spi_exit calm_board running_world = Ok tt w') /\
  ~ (exists w', spi_exit calm_board fresh_world = Ok tt w').
Proof.
  split.
  - apply (spi_exit_needs_adapter calm_board running_world);
      [left; reflexivity | discriminate].
  - intros H.
    apply (spi_exit_needs_adapter calm_board fresh_world) in H;
      [apply H; reflexivity | left; reflexivity].
Defined.

(** X17: with nothing queued on the workqueue, spi_exit calls esp_deinit_bt
    exactly when adapter->hcidev is set at the time it looks, that is after
    esp_remove_card, and then once, for its own adapter. *)
Theorem spi_exit_deinit_bt_if_registered P w a w' :
  adapter (spi_context w) = Some a ->
  wq_queued w = 0%nat \/ spi_workqueue (spi_context w) = None ->
  spi_exit P w = Ok tt w' ->
  exists seen done,
    trace w' = seen ++ done /\
    last seen = Some (Ev (Cesp_remove_card (Some a)) RVoid) /\
    (In (Ev (Cesp_deinit_bt (Some a)) RVoid) done
     <-> adapter_hcidev P seen a <> None) /\
    (forall b, In (Ev (Cesp_deinit_bt b) RVoid) done -> b = Some a).
Proof.
  intros Ha Hidle Hrun.
  rewrite (spi_exit_idle P w a Ha Hidle) in Hrun. injection Hrun as <-.
  set (w0 := stopped_idle w).
  exists (trace w0 ++ [Ev Cesp_serial_cleanup RVoid;
                       Ev (Cesp_remove_card (Some a)) RVoid]).
  eexists. split.
  { unfold released, release_events. cbn [trace].
    change (?x :: ?y :: ?l) with ([x; y] ++ l) at 1.
    rewrite app_assoc. reflexivity. }
  split.
  { change [Ev Cesp_serial_cleanup RVoid; Ev (Cesp_remove_card (Some a)) RVoid]
      with ([Ev Cesp_serial_cleanup RVoid]
              ++ [Ev (Cesp_remove_card (Some a)) RVoid]).
    rewrite app_assoc. apply last_snoc. }
  destruct (adapter_hcidev P _ a) as [h|]; cbn [is_null];
    destruct (esp_spi_dev (spi_context w0)); cbn.
  all: split; [split; intros; intuition (try discriminate; try congruence)
              | intros b Hb; intuition congruence].
Qed.

Lemma spi_exit_deinit_bt_if_registered_witness :
  exists w',
    spi_exit bt_board running_world = Ok tt w' /\
    In (Ev (Cesp_deinit_bt (Some adapter7)) RVoid) (trace w').
Proof.
  assert (H : exists w', spi_exit bt_board running_world = Ok tt w')
    by (eexists; reflexivity).
  destruct H as [w' Hw']. exists w'. split; [exact Hw'|].
  destruct (spi_exit_deinit_bt_if_registered bt_board running_world adapter7
              w' eq_refl (or_introl eq_refl) Hw')
    as (seen & done & Ht & _ & [_ Hin] & _).
  rewrite Ht. apply in_or_app. right. apply Hin. discriminate.
Defined.

(** X8: the interrupt handler and the work item commute: an edge taken
    before an activation and an edge taken after it end in the same world,
    so an edge that falls into a transaction is neither lost nor does it
    disturb the transaction. *)
Theorem edge_commutes_with_activation P irq dev w p :
  platform_ok P ->
  ext_ptr P (trace w) (Cesp_alloc_skb (SPI_BUF_SIZE P)) = Some p ->
  (spi_interrupt_handler irq dev ;;; esp_spi_work P) w
  = (esp_spi_work P ;;; spi_interrupt_handler irq dev ;;; ret tt) w
  /\ (esp_spi_work P ;;; spi_interrupt_handler irq dev ;;; ret tt) w
     = Ok tt (after_edge (after_activation P w p)).
Proof.
  intros HP Ha.
  assert (Hafter : (esp_spi_work P ;;; spi_interrupt_handler irq dev ;;; ret tt) w
                   = Ok tt (after_edge (after_activation P w p))).
  { rewrite (bind_Ok _ _ _ _ _ (esp_spi_work_run P w p HP Ha)).
    rewrite (bind_Ok _ _ _ _ _ (spi_interrupt_handler_run irq dev _)).
    reflexivity. }
  split; [|exact Hafter]. rewrite Hafter.
  rewrite (bind_Ok _ _ _ _ _ (spi_interrupt_handler_run irq dev w)).
  rewrite <- edge_during_activation.
  apply esp_spi_work_run; [exact HP|].
  destruct (after_edge_frame w) as (-> & _). exact Ha.
Qed.

Lemma edge_commutes_with_activation_witness :
  (spi_interrupt_handler 182 None ;;; esp_spi_work calm_board) one_to_send
  = (esp_spi_work calm_board ;;; spi_interrupt_handler 182 None ;;; ret tt)
      one_to_send.
Proof.
  apply (edge_commutes_with_activation calm_board 182 None one_to_send
           1%positive (board_ok _ _ _ _) eq_refl).
Defined.

(** ** spi_exit out of memory *)

(** X19: spi_exit does not complete when an activation is still queued and
    there is no memory for its receive buffer. destroy_workqueue runs the
    activation, which stops at skb_put on the NULL buffer: nothing has been
    released by then and the context is not zeroed. *)
Theorem spi_exit_drain_out_of_memory P w wq n :
  spi_workqueue (spi_context w) = Some wq ->
  wq_queued w = S n ->
  ext_ptr P (trace w ++ [Ev (Cdestroy_workqueue wq) RVoid])
          (Cesp_alloc_skb (SPI_BUF_SIZE P)) = None ->
  exists w',
    spi_exit P w = Fault NullDeref w' /\
    spi_workqueue (spi_context w') = Some wq /\
    adapter (spi_context w') = adapter (spi_context w) /\
    trace w' = trace w ++ [Ev (Cdestroy_workqueue wq) RVoid;
                           alloc_rx_of P None].
Proof.
  intros Hwq Hq Ha.
  destruct w as [[ad dev tq rq q pend] ads m tr].
  cbn [spi_context spi_workqueue wq_queued trace adapter] in *. subst q m.
  eexists. split.
  - unfold spi_exit. unfold bind at 1. unfold get_context at 1.
    cbn [spi_context spi_workqueue].
    unfold bind at 1. unfold destroy_workqueue. unfold bind at 1.
    unfold call_void at 1. unfold log. cbn [wq_queued drain_workqueue].
    unfold bind at 1. unfold worker_run at 1.
    cbn [spi_context adapters wq_queued trace].
    rewrite esp_spi_work_stops by exact Ha. reflexivity.
  - unfold stopped_at_skb_put, log, set_context.
    cbn [spi_context adapters wq_queued trace set_tx_q set_spi_work_pending
         spi_workqueue adapter].
    rewrite <- app_assoc. repeat split.
Qed.

Lemma spi_exit_drain_out_of_memory_witness :
  wq_queued (after_edge left_over) = 1%nat /\
  exists w', spi_exit oom_board (after_edge left_over) = Fault NullDeref w'.
Proof.
  split; [reflexivity|].
  destruct (spi_exit_drain_out_of_memory oom_board (after_edge left_over)
              8%positive 0%nat eq_refl eq_refl eq_refl) as (w' & Hrun & _).
  exists w'. exact Hrun.
Defined.
